(** * Recommendation scoring of the AI-powered API example

    A shallow embedding of
    [examples/advanced/ai-powered-api/handlers/recommendations.py]:
    the preference parser (the loop that decodes [category:score] pairs),
    [calculate_user_similarity], [generate_collaborative_recommendations],
    [generate_content_recommendations] and the request handler [main].

    Python's [float] arithmetic is kept behind the interface [Arith], so
    every function of the handler is written once.  Two instances follow:
    [binary64], IEEE 754 double precision on Rocq's primitive floats, which
    is the arithmetic the handler runs on and which evaluates, and [exact],
    the real numbers, the arithmetic without rounding in which the cosine
    formula is usually read.  A theorem stated for every instance holds for
    both.

    What the source leaves to the interpreter and to the platform is kept
    as follows.
    - [x ** 0.5] is the [pow] of the C library: [binary64_with pow_half]
      is binary64 with [pow_half] for it, and [binary64] takes the
      correctly rounded square root, which is what CPython returns at the
      inputs that are evaluated here.  [x ** 2] is the correctly rounded
      square.
    - [sum] adds from left to right, each addition rounded, as CPython does
      up to 3.11; 3.12 adds a compensation term.
    - A [set] has no specified iteration order (in CPython it depends on the
      hash seed of the process and on how the set was built): the order in
      which the shared categories are iterated is the parameter
      [SetIteration], of which only a permutation of the shared keys is
      known.
    - [list.sort] is CPython 3.11's: for fewer than 64 elements the run
      detection and the binary insertion of [listobject.c], whatever the
      keys (NaN included); for longer lists the merges are the parameter
      [LongSort].  Where [<] orders the keys consistently it is the stable
      descending sort.
    - [float(s)] reads ASCII: blanks around the numeral, single underscores
      between digits, [inf], [infinity] and [nan] in any case.  The digits
      and blanks outside ASCII that [float] and [str.isdigit] also accept
      are not read; the statements on paths carry the hypothesis that the
      path is ASCII.
    - [random.sample] is CPython's selection from a pool, over an explicit
      sequence of draws.
    - The data store is a parameter: what the two queries of
      [load_user_data] return, when the database answers them with rows
      that have the columns [id], [name] and [email].
    - The standard input is what [json.loads] makes of it, a value of any
      JSON type, or the error it raises. *)

From Stdlib Require Import Floats.
From Stdlib Require Import Reals Lra.
From Stdlib Require Import ZArith List String Ascii Bool Lia Sorted Permutation.
From Stdlib Require Import DecimalString DecimalN.
Import ListNotations.
Local Open Scope string_scope.
Local Open Scope list_scope.

(** ** Exceptions

    A call either returns a value or raises.  [ValueError] is what
    [float(score)] raises on a malformed score (the specification's
    ParseError). *)

Inductive exn : Type :=
| ValueError
| KeyError
| OverflowError
| ZeroDivisionError
| TypeError
| AttributeError.

Inductive result (A : Type) : Type :=
| Ok (a : A)
| Raise (e : exn).

Arguments Ok {A} a.
Arguments Raise {A} e.

Definition bind {A B : Type} (c : result A) (k : A -> result B) : result B :=
  match c with
  | Ok a => k a
  | Raise e => Raise e
  end.

Notation "x <- c ;; k" := (bind c (fun x => k))
  (at level 61, c at next level, right associativity).

(** A [for] loop that appends one computed value per element. *)
Fixpoint mapM {A B : Type} (f : A -> result B) (l : list A) : result (list B) :=
  match l with
  | [] => Ok []
  | x :: l' => y <- f x ;; ys <- mapM f l' ;; Ok (y :: ys)
  end.

(** A [for] loop that updates one accumulator; a raise leaves the loop. *)
Fixpoint foldM {A B : Type} (f : B -> A -> result B) (l : list A) (acc : B)
  : result B :=
  match l with
  | [] => Ok acc
  | x :: l' => acc' <- f acc x ;; foldM f l' acc'
  end.

(** ** Strings

    [str] is modelled by [string]; the separators [","] and [":"] are ASCII,
    and no byte of a multi-byte UTF-8 character equals an ASCII byte. *)

(** [c in s] for a one-character [c]. *)
Fixpoint contains (c : ascii) (s : string) : bool :=
  match s with
  | EmptyString => false
  | String a s' => Ascii.eqb a c || contains c s'
  end.

(** [s.split(sep)]: every occurrence of [sep] separates two pieces. *)
Fixpoint split (sep : ascii) (s : string) : list string :=
  match s with
  | EmptyString => [EmptyString]
  | String a s' =>
      if Ascii.eqb a sep then EmptyString :: split sep s'
      else match split sep s' with
           | w :: ws => String a w :: ws
           | [] => [String a EmptyString]
           end
  end.

(** [s.split(sep, 1)]: only the first occurrence of [sep] separates. *)
Fixpoint split_max1 (sep : ascii) (s : string) : list string :=
  match s with
  | EmptyString => [EmptyString]
  | String a s' =>
      if Ascii.eqb a sep then [EmptyString; s']
      else match split_max1 sep s' with
           | w :: ws => String a w :: ws
           | [] => [String a EmptyString]
           end
  end.

(** [sep.join(pieces)], the inverse of [split]. *)
Fixpoint join (sep : ascii) (pieces : list string) : string :=
  match pieces with
  | [] => EmptyString
  | [w] => w
  | w :: ws => (w ++ String sep (join sep ws))%string
  end.

(** Truth value of [row.get('preferences')]: [None] and [''] are false. *)
Definition truthy (o : option string) : bool :=
  match o with
  | None => false
  | Some s => negb (String.eqb s EmptyString)
  end.

(** The string behind a truthy [row['preferences']]. *)
Definition raw (o : option string) : string :=
  match o with
  | None => EmptyString
  | Some s => s
  end.

(** Truth value of an optional integer: [None] and [0] are false. *)
Definition truthy_id (user_id : option Z) : bool :=
  match user_id with
  | None => false
  | Some n => negb (n =? 0)%Z
  end.

(** ** The arithmetic of [float]

    The operations the handler applies to scores.  [float_of_string] is
    [float(s)], [None] standing for its [ValueError]; [lit m k] is the
    decimal literal [m * 10**-k] ([0.1] is [lit 1 1]); [fpow2 x] is
    [x ** 2], which raises [OverflowError] when the square is out of range;
    [fpow_half x] is [x ** 0.5]; [fdiv] raises [ZeroDivisionError] on a zero
    divisor; [feqb] and [fltb] are [==] and [<]; [round3 x] is
    [round(x, 3)]. *)

Class Arith (F : Type) : Type := {
  lit : Z -> nat -> F;
  float_of_string : string -> option F;
  fadd : F -> F -> F;
  fmul : F -> F -> F;
  fdiv : F -> F -> result F;
  fpow2 : F -> result F;
  fpow_half : F -> F;
  feqb : F -> F -> bool;
  fltb : F -> F -> bool;
  round3 : F -> F
}.

(** ** The iteration order of a [set]

    The source iterates over [set(prefs1.keys()) & set(prefs2.keys())]
    (line 74).  The order in which a set lists its elements is not fixed by
    the language: in CPython it follows the hashes of the strings, which
    change with the hash seed of the process, and the way the set was
    built.  It is a parameter: [set_and ks1 ks2] is the order in which the
    intersection of the keys [ks1] and [ks2] is iterated, of which only
    this is known: it lists each shared key once. *)

Class SetIteration : Type := {
  set_and : list string -> list string -> list string;
  set_and_perm :
    forall ks1 ks2 : list string,
      NoDup ks1 ->
      Permutation (set_and ks1 ks2)
        (filter (fun k => existsb (String.eqb k) ks2) ks1)
}.

(** ** [list.sort(key=..., reverse=True)] *)

Section Sorting.

Context {F : Type} {arith : Arith F} {A : Type}.

Variable key : A -> F.

(** *** The stable descending sort

    Stable insertion: an element passes the elements whose key is strictly
    greater and stops before the first that is not, so it stays in front
    of the later elements with an equal key.  When [<] orders the keys
    consistently every stable sort returns this list. *)

Fixpoint insert_desc (x : A) (l : list A) : list A :=
  match l with
  | [] => [x]
  | y :: l' =>
      if fltb (key x) (key y) then y :: insert_desc x l' else x :: l
  end.

Definition sort_desc (l : list A) : list A :=
  fold_right insert_desc [] l.

(** The same insertion into a list held in ascending order. *)
Definition insert_asc (p : list A) (x : A) : list A :=
  rev (insert_desc x (rev p)).

(** [not_less a b]: the key of [b] is not strictly more than that of [a];
    on keys that [<] orders consistently, [a] is at least [b]. *)
Definition not_less (a b : A) : Prop :=
  fltb (key a) (key b) = false.


(** *** What CPython does

    [list.sort] compares keys with [<] only.  With [reverse=True] it
    reverses the list, sorts it ascending and reverses the result.  A list
    of fewer than 64 elements is sorted in one run (CPython 3.11,
    [listobject.c]): [count_run] finds the longest prefix that is
    ascending ([not (next < previous)]) or strictly descending
    ([next < previous]), a descending prefix is reversed in place, and
    [binarysort] inserts each remaining element at the place a binary
    search finds. *)

(** How many elements after [previous] continue the run. *)
Fixpoint run_length (descending : bool) (previous : A) (l : list A) : nat :=
  match l with
  | [] => O
  | x :: l' =>
      if Bool.eqb (fltb (key x) (key previous)) descending
      then S (run_length descending x l')
      else O
  end.

(** The length of the run at the head of the list, and whether it is
    descending. *)
Definition count_run (l : list A) : nat * bool :=
  match l with
  | [] => (O, false)
  | [_] => (1%nat, false)
  | x :: y :: rest =>
      let descending := fltb (key y) (key x) in
      (S (S (run_length descending y rest)), descending)
  end.

(** The binary search of [binarysort]: while [l < r], [p] is the middle of
    [l] and [r]; the pivot goes left of [p] when it is less than the
    element there, right of it otherwise.  [fuel] bounds the number of
    steps; the length of the list is enough. *)
Fixpoint bisect (pivot : A) (sorted : list A) (fuel l r : nat) : nat :=
  match fuel with
  | O => l
  | S fuel' =>
      if (l <? r)%nat then
        let p := (l + (r - l) / 2)%nat in
        if fltb (key pivot) (key (nth p sorted pivot))
        then bisect pivot sorted fuel' l p
        else bisect pivot sorted fuel' (S p) r
      else l
  end.

Definition binary_insert (sorted : list A) (pivot : A) : list A :=
  let l := bisect pivot sorted (List.length sorted) O (List.length sorted) in
  firstn l sorted ++ pivot :: skipn l sorted.

Definition binarysort (run rest : list A) : list A :=
  fold_left binary_insert rest run.

(** The sort of a list of fewer than 64 elements, [reverse=True]. *)
Definition short_sort (l : list A) : list A :=
  let reversed := rev l in
  let (n, descending) := count_run reversed in
  let run := firstn n reversed in
  rev (binarysort (if descending then rev run else run) (skipn n reversed)).

End Sorting.

(** [consistent keys]: on these keys, [not (x < y)] is transitive; with
    the asymmetry of [<] this makes [<] a strict weak order on them.  It
    holds of floats none of which is NaN. *)
Definition consistent {F : Type} {arith : Arith F} (keys : list F) : Prop :=
  forall x y z,
    In x keys -> In y keys -> In z keys ->
    fltb x y = false -> fltb y z = false -> fltb x z = false.

(** A list of 64 elements or more is cut into runs that are merged.  The
    merges are a parameter, [merge_sort], of which two things are used:
    the result is a rearrangement of the list, and it is the stable
    descending sort when [<] orders the keys consistently. *)
Class LongSort (F : Type) {arith : Arith F} : Type := {
  merge_sort : forall A : Type, (A -> F) -> list A -> list A;
  merge_sort_perm :
    forall (A : Type) (key : A -> F) (l : list A),
      Permutation (merge_sort A key l) l;
  merge_sort_stable :
    forall (A : Type) (key : A -> F) (l : list A),
      consistent (map key l) -> merge_sort A key l = sort_desc key l
}.

Arguments merge_sort {F arith LongSort A} key l.

(** ** Rows of the data store *)

(** A row of the [users] table as the handler reads it: the keys ['id'],
    ['name'], ['email'] and, when the query supplies it and it is not NULL,
    ['preferences']. *)
Record User : Type := {
  id : Z;
  name : string;
  email : string;
  preferences : option string
}.

(** What [load_user_data] reads: [all_users] is the result of the query
    over every user, [query_user n] what [fetchone] returns for the query
    on user [n]. *)
Record DataStore : Type := {
  all_users : list User;
  query_user : Z -> option User
}.

Definition load_user_data (db : DataStore) (user_id : option Z) : list User :=
  match user_id with
  | Some n =>
      if truthy_id user_id then
        match query_user db n with
        | Some user => [user]
        | None => []
        end
      else all_users db
  | None => all_users db
  end.

(** ** [random.sample]

    The randomness source is the sequence of raw draws; the [i]-th call
    [randbelow(m)] returns the [i]-th draw reduced into [range(m)], so
    every sequence is an outcome and every outcome comes from a sequence.
    For a population of at most 21 elements CPython's [random.sample]
    selects from a pool: it picks [pool[j]] with [j = randbelow(n - i)] and
    moves the last live element of the pool into the vacancy. *)

Fixpoint set_nth {A : Type} (j : nat) (x : A) (l : list A) : list A :=
  match l, j with
  | [], _ => []
  | _ :: l', O => x :: l'
  | a :: l', S j' => a :: set_nth j' x l'
  end.

Fixpoint sample {A : Type} (pool : list A) (k : nat) (draws : list nat)
  : list A :=
  match k with
  | O => []
  | S k' =>
      match pool with
      | [] => []
      | a :: _ =>
          let j := (hd O draws mod List.length pool)%nat in
          nth j pool a ::
            sample (removelast (set_nth j (last pool a) pool)) k' (tl draws)
      end
  end.

Section Handler.

Context {F : Type} {arith : Arith F}.
Context {sets : SetIteration} {sorting : LongSort F}.

(** ** [dict] with [str] keys

    A [dict] keeps its keys in insertion order, and [sum] over it adds in
    that order, so it is an association list with distinct keys. *)

Definition dict : Type := list (string * F).

Definition keys (d : dict) : list string := map fst d.
Definition values (d : dict) : list F := map snd d.

Fixpoint dict_get (d : dict) (k : string) : option F :=
  match d with
  | [] => None
  | (k', v) :: d' => if String.eqb k' k then Some v else dict_get d' k
  end.

(** [d[k] = v]: an existing key keeps its place, a new one goes last. *)
Fixpoint dict_set (k : string) (v : F) (d : dict) : dict :=
  match d with
  | [] => [(k, v)]
  | (k', v') :: d' =>
      if String.eqb k' k then (k', v) :: d' else (k', v') :: dict_set k v d'
  end.

(** [d[k]] *)
Definition getitem (d : dict) (k : string) : result F :=
  match dict_get d k with
  | Some v => Ok v
  | None => Raise KeyError
  end.

(** [d.get(k, default)] *)
Definition get_default (d : dict) (k : string) (default : F) : F :=
  match dict_get d k with
  | Some v => v
  | None => default
  end.

Definition dict_wf (d : dict) : Prop := NoDup (keys d).

(** [sum(xs)]: the int [0] plus each element, left to right. *)
Definition sum (xs : list F) : F := fold_left fadd xs (lit 0 0).

(** [l.sort(key=key, reverse=True)] *)
Definition list_sort {A : Type} (key : A -> F) (l : list A) : list A :=
  if (List.length l <? 64)%nat then short_sort key l else merge_sort key l.

(** ** Preference parser (lines 59-62, 64-67 and 135-138) *)

(** The body of the loop: one [pref] of [raw.split(',')]. *)
Definition parse_pref (prefs : dict) (pref : string) : result dict :=
  if contains ":" pref then
    match split_max1 ":" pref with
    | [cat; score] =>
        match float_of_string score with
        | Some x => Ok (dict_set cat x prefs)
        | None => Raise ValueError
        end
    | _ => Raise ValueError
    end
  else Ok prefs.

Definition parse_preferences (s : string) : result dict :=
  foldM parse_pref (split "," s) [].

(** ** Similarity engine *)

(** [set(prefs1.keys()) & set(prefs2.keys())], as it is iterated. *)
Definition common_categories (prefs1 prefs2 : dict) : list string :=
  set_and (keys prefs1) (keys prefs2).

(** [sum(prefs[cat]**2 for cat in prefs) ** 0.5] *)
Definition magnitude (prefs : dict) : result F :=
  squares <- mapM (fun cat => x <- getitem prefs cat ;; fpow2 x) (keys prefs) ;;
  Ok (fpow_half (sum squares)).

(** Lines 70-81, on the two parsed maps. *)
Definition cosine_similarity (prefs1 prefs2 : dict) : result F :=
  let common := common_categories prefs1 prefs2 in
  match common with
  | [] => Ok (lit 1 1)
  | _ :: _ =>
      products <- mapM (fun cat => x <- getitem prefs1 cat ;;
                                   y <- getitem prefs2 cat ;;
                                   Ok (fmul x y)) common ;;
      let dot_product := sum products in
      magnitude1 <- magnitude prefs1 ;;
      magnitude2 <- magnitude prefs2 ;;
      if feqb magnitude1 (lit 0 0) || feqb magnitude2 (lit 0 0)
      then Ok (lit 1 1)
      else fdiv dot_product (fmul magnitude1 magnitude2)
  end.

Definition calculate_user_similarity (user1 user2 : User) : result F :=
  if negb (truthy (preferences user1)) || negb (truthy (preferences user2))
  then Ok (lit 1 1)
  else
    prefs1 <- parse_preferences (raw (preferences user1)) ;;
    prefs2 <- parse_preferences (raw (preferences user2)) ;;
    cosine_similarity prefs1 prefs2.

(** ** Collaborative recommender *)

Record UserRef : Type := {
  ref_id : Z;
  ref_name : string;
  ref_email : string
}.

Record Recommendation : Type := {
  rec_type : string;
  rec_user : UserRef;
  similarity_score : F;
  rec_reason : string
}.

Definition user_connection (entry : User * F) : Recommendation :=
  let (similar_user, similarity) := entry in
  {| rec_type := "user_connection";
     rec_user := {| ref_id := id similar_user;
                    ref_name := name similar_user;
                    ref_email := email similar_user |};
     similarity_score := round3 similarity;
     rec_reason := "Similar interests and interaction patterns" |}.

(** [user['id'] != user_id] *)
Definition other_than (user_id : Z) (user : User) : bool :=
  negb (id user =? user_id)%Z.

(** Lines 92-96: one [(user, similarity)] per user other than the target. *)
Definition similarities_to (target_user : User) (user_id : Z)
  (users : list User) : result (list (User * F)) :=
  mapM (fun user => similarity <- calculate_user_similarity target_user user ;;
                    Ok (user, similarity))
       (filter (other_than user_id) users).

Definition generate_collaborative_recommendations (db : DataStore)
  (user_id : Z) : result (list Recommendation) :=
  let users := load_user_data db None in
  match find (fun u => (id u =? user_id)%Z) users with
  | None => Ok []
  | Some target_user =>
      similarities <- similarities_to target_user user_id users ;;
      let similar_users := firstn 3 (list_sort snd similarities) in
      Ok (map user_connection similar_users)
  end.

(** ** Content recommender *)

Record ContentItem : Type := {
  item_id : string;
  item_type : string;
  title : string;
  category : string;
  score : F
}.

(** An item with the two keys the personalized branch adds. *)
Record ScoredContent : Type := {
  item : ContentItem;
  recommendation_score : F;
  reason : string
}.

(** An entry of the returned list: a catalog item as it is, or scored. *)
Inductive ContentRec : Type :=
| Plain (i : ContentItem)
| Scored (s : ScoredContent).

(** The ['id'] of a returned entry. *)
Definition rec_item_id (r : ContentRec) : string :=
  match r with
  | Plain i => item_id i
  | Scored s => item_id (item s)
  end.


Definition content_items : list ContentItem :=
  [ {| item_id := "tech-001"; item_type := "article";
       title := "Future of AI"; category := "technology"; score := lit 9 1 |};
    {| item_id := "tech-002"; item_type := "article";
       title := "Web3 Explained"; category := "technology"; score := lit 8 1 |};
    {| item_id := "sports-001"; item_type := "article";
       title := "Olympics 2024"; category := "sports"; score := lit 85 2 |};
    {| item_id := "music-001"; item_type := "playlist";
       title := "Indie Rock Hits"; category := "music"; score := lit 9 1 |};
    {| item_id := "travel-001"; item_type := "guide";
       title := "Hidden Gems in Europe"; category := "travel";
       score := lit 87 2 |};
    {| item_id := "cook-001"; item_type := "recipe";
       title := "Quick Healthy Meals"; category := "cooking";
       score := lit 75 2 |} ].

(** Lines 143-149: the entry appended for one item. *)
Definition score_content (user_prefs : dict) (i : ContentItem) : ScoredContent :=
  let preference_score := get_default user_prefs (category i) (lit 1 1) in
  let final_score := fmul (score i) preference_score in
  {| item := i;
     recommendation_score := round3 final_score;
     reason := ("Matches your " ++ category i ++ " preferences")%string |}.

(** Lines 141-153 over a catalog. *)
Definition rank_content (catalog : list ContentItem) (user_prefs : dict)
  : list ScoredContent :=
  firstn 5 (list_sort recommendation_score
              (map (score_content user_prefs) catalog)).

(** Line 156 over a catalog. *)
Definition default_recommendations (catalog : list ContentItem)
  (draws : list nat) : list ContentItem :=
  sample catalog (Nat.min 3 (List.length catalog)) draws.

Definition generate_content_recommendations (db : DataStore)
  (draws : list nat) (user_id : option Z) : result (list ContentRec) :=
  let default := Ok (map Plain (default_recommendations content_items draws)) in
  if truthy_id user_id then
    match load_user_data db user_id with
    | user :: _ =>
        if truthy (preferences user) then
          user_prefs <- parse_preferences (raw (preferences user)) ;;
          Ok (map Scored (rank_content content_items user_prefs))
        else default
    | [] => default
    end
  else default.

(** ** The similarity engine in the words of the specification

    Cosine similarity over the categories present in both maps: the dot
    product of the shared scores divided by the product of the L2 norms of
    each map's full score vector, with the floor value in three cases, in
    the order in which the specification lists them. *)

Definition is_empty (A : dict) : bool :=
  match A with
  | [] => true
  | _ :: _ => false
  end.

Definition shares_category (A B : dict) : bool :=
  existsb (fun cat => existsb (String.eqb cat) (keys B)) (keys A).

(** One product per shared category, in the order in which the set of the
    shared categories lists them. *)
Definition shared_products (A B : dict) : list F :=
  flat_map (fun cat => match dict_get A cat, dict_get B cat with
                       | Some a, Some b => [fmul a b]
                       | _, _ => []
                       end) (common_categories A B).

Definition dot_shared (A B : dict) : F := sum (shared_products A B).

(** The norm of all the scores of [A], shared or not. *)
Definition l2_norm (A : dict) : result F :=
  squares <- mapM fpow2 (values A) ;;
  Ok (fpow_half (sum squares)).

(** The norm of [A] is zero. *)
Definition zero_norm (A : dict) : bool :=
  match l2_norm A with
  | Ok norm => feqb norm (lit 0 0)
  | Raise _ => false
  end.

(** The three floor cases in the order of the specification, each
    returning at once, then the quotient. *)
Definition spec_similarity (A B : dict) : result F :=
  if is_empty A || is_empty B then Ok (lit 1 1)
  else if negb (shares_category A B) then Ok (lit 1 1)
  else if zero_norm A || zero_norm B then Ok (lit 1 1)
  else
    norm1 <- l2_norm A ;;
    norm2 <- l2_norm B ;;
    fdiv (dot_shared A B) (fmul norm1 norm2).

(** The entries of [A] behind the keys [ks]. *)
Definition entries_of (A : dict) (ks : list string) : list (string * F) :=
  flat_map (fun k => match dict_get A k with
                     | Some v => [(k, v)]
                     | None => []
                     end) ks.

(** The same with the steps in the order of the code: both norms are
    computed, then tested. *)
Definition similarity_by_norms (A B : dict) : result F :=
  if is_empty A || is_empty B then Ok (lit 1 1)
  else if negb (shares_category A B) then Ok (lit 1 1)
  else
    norm1 <- l2_norm A ;;
    norm2 <- l2_norm B ;;
    if feqb norm1 (lit 0 0) || feqb norm2 (lit 0 0) then Ok (lit 1 1)
    else fdiv (dot_shared A B) (fmul norm1 norm2).

End Handler.

(** ** Decimal numerals

    The ASCII strings [float] accepts: between optional blanks, an optional
    sign, then [inf], [infinity] or [nan] in any case, or digits with an
    optional fraction and an optional exponent, with single underscores
    between digits.  A string is a sequence of bytes here, so the blanks
    and the decimal digits outside ASCII, which [float] accepts too, are
    not recognised. *)

Inductive numeral : Type :=
| Decimal (negative : bool) (mantissa : N) (exponent : Z)
| Infinity (negative : bool)
| NotANumber.

Definition digit_of (c : ascii) : option N :=
  let n := N_of_ascii c in
  if ((48 <=? n) && (n <=? 57))%N then Some (n - 48)%N else None.

(** Leading digits of [s]: how many, their value after [acc], the rest. *)
Fixpoint read_digits (s : string) (acc : N) : nat * N * string :=
  match s with
  | EmptyString => (O, acc, s)
  | String c s' =>
      match digit_of c with
      | Some d =>
          let '(n, v, rest) := read_digits s' (10 * acc + d)%N in (S n, v, rest)
      | None => (O, acc, s)
      end
  end.

Definition read_sign (s : string) : bool * string :=
  match s with
  | String "-" s' => (true, s')
  | String "+" s' => (false, s')
  | _ => (false, s)
  end.

Definition lower (c : ascii) : ascii :=
  let n := N_of_ascii c in
  if ((65 <=? n) && (n <=? 90))%N then ascii_of_N (n + 32) else c.

Fixpoint lowercase (s : string) : string :=
  match s with
  | EmptyString => EmptyString
  | String c s' => String (lower c) (lowercase s')
  end.

(** The exponent part: empty, or [e] or [E], a sign and at least one digit. *)
Definition read_exponent (s : string) : option Z :=
  match s with
  | EmptyString => Some 0%Z
  | String c s' =>
      if Ascii.eqb (lower c) "e" then
        let (neg, digits) := read_sign s' in
        match read_digits digits 0 with
        | (S _, v, EmptyString) =>
            Some (if neg then (- Z.of_N v)%Z else Z.of_N v)
        | _ => None
        end
      else None
  end.

(** The blanks [float] strips: tab to carriage return, and space. *)
Definition is_blank (c : ascii) : bool :=
  let n := N_of_ascii c in
  ((9 <=? n) && (n <=? 13) || (n =? 32))%N.

Fixpoint lstrip (s : string) : string :=
  match s with
  | EmptyString => EmptyString
  | String c s' => if is_blank c then lstrip s' else s
  end.

Fixpoint rstrip (s : string) : string :=
  match s with
  | EmptyString => EmptyString
  | String c s' =>
      match rstrip s' with
      | EmptyString => if is_blank c then EmptyString else String c EmptyString
      | kept => String c kept
      end
  end.

Definition is_digit (c : ascii) : bool :=
  match digit_of c with
  | Some _ => true
  | None => false
  end.

(** The string without its underscores; an underscore is allowed after a
    digit and before a digit only.  [previous] is the character before. *)
Fixpoint drop_underscores (previous : ascii) (s : string) : option string :=
  match s with
  | EmptyString =>
      if Ascii.eqb previous "_" then None else Some EmptyString
  | String c s' =>
      if Ascii.eqb c "_" then
        if is_digit previous then drop_underscores c s' else None
      else if Ascii.eqb previous "_" && negb (is_digit c) then None
      else option_map (String c) (drop_underscores c s')
  end.

Definition read_plain_numeral (s : string) : option numeral :=
  let (neg, body) := read_sign s in
  let word := lowercase body in
  if String.eqb word "inf" || String.eqb word "infinity" then Some (Infinity neg)
  else if String.eqb word "nan" then Some NotANumber
  else
    let '(n_int, int_part, rest) := read_digits body 0 in
    let '(n_frac, mantissa, rest') :=
      match rest with
      | String "." fraction => read_digits fraction int_part
      | _ => (O, int_part, rest)
      end in
    match (n_int + n_frac)%nat with
    | O => None
    | S _ =>
        match read_exponent rest' with
        | Some e => Some (Decimal neg mantissa (e - Z.of_nat n_frac))
        | None => None
        end
    end.

Definition read_numeral (s : string) : option numeral :=
  match drop_underscores Ascii.zero (rstrip (lstrip s)) with
  | Some plain => read_plain_numeral plain
  | None => None
  end.

Fixpoint pow10 (k : nat) : positive :=
  match k with
  | O => 1
  | S k' => 10 * pow10 k'
  end.

(** [m * 10**e] as a fraction. *)
Definition fraction_of (m : N) (e : Z) : N * positive :=
  match e with
  | Zneg p => (m, Pos.pow 10 p)
  | _ => ((m * N.pow 10 (Z.to_N e))%N, 1%positive)
  end.

(** Round-half-even of [a / b] to an integer. *)
Definition div_half_even (a : N) (b : positive) : N :=
  let q := (a / Npos b)%N in
  let r := (a mod Npos b)%N in
  match (2 * r ?= Npos b)%N with
  | Lt => q
  | Gt => (q + 1)%N
  | Eq => if N.even q then q else (q + 1)%N
  end.

(** ** The preference string of the data store (line 24)

    [GROUP_CONCAT(up.category || ':' || up.preference_score)] joins one
    [category:score] per preference row with commas, in the order in which
    SQLite takes the rows; [show] is the text SQLite gives a score.  For a
    user without preference rows the column is NULL, which the handlers
    never parse. *)

Definition encode_preferences {F : Type} (show : F -> string)
  (rows : list (string * F)) : string :=
  join "," (map (fun row => (fst row ++ String ":" (show (snd row)))%string)
              rows).

(** The decimal numeral of [n], as [str(n)] writes it. *)
Definition decimal (n : N) : string := NilEmpty.string_of_uint (N.to_uint n).

(** ** Request handler (lines 174-253)

    From what is read on the standard input to the response that is
    printed.  The data store answers every query, and its rows have the
    columns [id], [name] and [email]. *)

(** [needle in s] for two strings. *)
Fixpoint is_in (needle s : string) : bool :=
  String.prefix needle s
  || match s with
     | EmptyString => false
     | String _ s' => is_in needle s'
     end.

(** Every character of [s] is ASCII. *)
Fixpoint ascii_only (s : string) : bool :=
  match s with
  | EmptyString => true
  | String c s' => (N_of_ascii c <? 128)%N && ascii_only s'
  end.

(** [s.isdigit()] for an ASCII [s]: not empty and digits only.  Outside
    ASCII, [str.isdigit] accepts more characters. *)
Definition isdigit (s : string) : bool :=
  match read_digits s 0 with
  | (S _, _, EmptyString) => true
  | _ => false
  end.

(** [int(s)] for a string of ASCII digits; CPython refuses more than
    4300. *)
Definition int_of_digits (s : string) : result Z :=
  if (4300 <? String.length s)%nat then Raise ValueError
  else let '(_, v, _) := read_digits s 0 in Ok (Z.of_N v).

(** [l.index(x)] *)
Fixpoint index (x : string) (l : list string) : result nat :=
  match l with
  | [] => Raise ValueError
  | y :: l' => if String.eqb y x then Ok O else i <- index x l' ;; Ok (S i)
  end.

(** Lines 200-208: the user id in an ASCII path, if any.  The [try]
    catches [ValueError]. *)
Definition extract_user_id (path : string) : result (option Z) :=
  let path_parts := split "/" path in
  if existsb (String.eqb "users") path_parts then
    let attempt :=
      user_idx <- index "users" path_parts ;;
      if (user_idx + 1 <? List.length path_parts)%nat
         && isdigit (nth (user_idx + 1) path_parts EmptyString)
      then n <- int_of_digits (nth (user_idx + 1) path_parts EmptyString) ;;
           Ok (Some n)
      else Ok None in
    match attempt with
    | Raise ValueError => Ok None
    | outcome => outcome
    end
  else Ok None.

(** A value that [json.loads] returns; of a number only that it is one
    matters. *)
#[local] Unset Elimination Schemes.
Inductive json : Type :=
| JNull
| JBool (b : bool)
| JNumber (literal : string)
| JString (s : string)
| JArray (elements : list json)
| JObject (members : list (string * json)).
#[local] Set Elimination Schemes.

(** The standard input: blank, or a text that [json.loads] decodes;
    [Text (Raise e)] when reading or decoding it raises [e]. *)
Inductive Stdin : Type :=
| Blank
| Text (decoded : result json).

(** Lines 178-182 *)
Definition request_of (input : Stdin) : result json :=
  match input with
  | Blank => Ok (JObject [])
  | Text decoded => decoded
  end.

(** The value of the last member named [k]: of two members with one name
    [json.loads] keeps the second. *)
Fixpoint last_member (k : string) (members : list (string * json))
  : option json :=
  match members with
  | [] => None
  | (k', v) :: rest =>
      match last_member k rest with
      | Some later => Some later
      | None => if String.eqb k' k then Some v else None
      end
  end.

(** [request.get(k, default)]; only a [dict] has [get]. *)
Definition get (request : json) (k : string) (default : json) : result json :=
  match request with
  | JObject members =>
      Ok (match last_member k members with
          | Some v => v
          | None => default
          end)
  | _ => Raise AttributeError
  end.

(** [needle in container]: a substring of a string, an element of a list,
    a key of a dict; the other values are not containers. *)
Definition contains_item (needle : string) (container : json) : result bool :=
  match container with
  | JString s => Ok (is_in needle s)
  | JArray elements =>
      Ok (existsb (fun v => match v with
                            | JString s => String.eqb s needle
                            | _ => false
                            end) elements)
  | JObject members =>
      Ok (existsb (fun member => String.eqb (fst member) needle) members)
  | _ => Raise TypeError
  end.

(** [method == 'GET'] *)
Definition is_get (method : json) : bool :=
  match method with
  | JString m => String.eqb m "GET"
  | _ => false
  end.

(** A request whose method and path are strings, or absent. *)
Record Request : Type := {
  req_method : option string;
  req_path : option string
}.

(** The handler reads [input] as the request: a JSON object whose method
    and path are the strings of [request], or absent. *)
Definition reads_as (input : Stdin) (request : Request) : Prop :=
  exists members,
    request_of input = Ok (JObject members)
    /\ last_member "method" members = option_map JString (req_method request)
    /\ last_member "path" members = option_map JString (req_path request).

Record TrendingItem : Type := {
  trending_title : string;
  views : Z;
  trending_category : string
}.

Record Trending : Type := {
  trend_id : string;
  trend_type : string;
  trend_title : string;
  items : list TrendingItem;
  trend_reason : string
}.

Definition generate_trending_recommendations : list Trending :=
  [ {| trend_id := "trend-001";
       trend_type := "trending";
       trend_title := "Most Popular This Week";
       items :=
         [ {| trending_title := "AI Breakthrough in Healthcare";
              views := 15420; trending_category := "technology" |};
           {| trending_title := "Sustainable Living Tips";
              views := 12350; trending_category := "lifestyle" |};
           {| trending_title := "New Music Releases";
              views := 9876; trending_category := "music" |} ];
       trend_reason := "Trending content across all categories" |} ].

Section Router.

Context {F : Type} {arith : Arith F}.
Context {sets : SetIteration} {sorting : LongSort F}.

Record Metadata : Type := {
  algorithm : string;
  confidence : F;
  processing_time_ms : Z
}.

Record RecommendationSet : Type := {
  collaborative : list (@Recommendation F);
  content : list (@ContentRec F);
  trending : list Trending
}.

Record Recommendations : Type := {
  response_user_id : option Z;
  timestamp : string;
  recommendations : RecommendationSet;
  metadata : Metadata
}.

(** The ['body'] of a response; ['message'] is the exception itself, not
    its text. *)
Inductive Body : Type :=
| Recommended (r : Recommendations)
| EndpointNotFound (error : string) (available_endpoints : list string)
| InternalServerError (error : string) (message : exn) (handler : string).

Record Response : Type := {
  status : Z;
  headers : list (string * string);
  body : Body
}.

(** Line 215: the collaborative recommender is called for a true id only. *)
Definition collaborative_for (db : DataStore) (user_id : option Z)
  : result (list Recommendation) :=
  match user_id with
  | Some n =>
      if truthy_id user_id then generate_collaborative_recommendations db n
      else Ok []
  | None => Ok []
  end.

(** Lines 199-226, for a path that is a string.  [now] is
    [datetime.now().isoformat()]; [time_draw] is the raw draw behind
    [random.randint(50, 200)], which is 50 plus a draw below 151. *)
Definition recommend (db : DataStore) (draws : list nat) (time_draw : nat)
  (now : string) (path : string) : result Response :=
  user_id <- extract_user_id path ;;
  collaborative_recs <- collaborative_for db user_id ;;
  content_recs <- generate_content_recommendations db draws user_id ;;
  Ok {| status := 200;
        headers := [("Content-Type", "application/json");
                    ("X-Powered-By", "Backworks-AI-Python")];
        body := Recommended
          {| response_user_id := user_id;
             timestamp := now;
             recommendations :=
               {| collaborative := collaborative_recs;
                  content := content_recs;
                  trending := generate_trending_recommendations |};
             metadata :=
               {| algorithm := "collaborative_filtering_v1";
                  confidence := lit 85 2;
                  processing_time_ms :=
                    50 + Z.of_nat (time_draw mod 151) |} |} |}.

(** Lines 228-237 *)
Definition not_found : Response :=
  {| status := 404;
     headers := [("Content-Type", "application/json");
                 ("X-Powered-By", "Backworks-AI-Python")];
     body := EndpointNotFound "Endpoint not found"
               ["GET /users/recommendations";
                "GET /users/{id}/recommendations"] |}.

(** Lines 242-253: what is printed when anything raised. *)
Definition internal_error (e : exn) : Response :=
  {| status := 500;
     headers := [("Content-Type", "application/json")];
     body := InternalServerError "Internal server error" e
               "python_recommendations" |}.

Definition printed (outcome : result Response) : Response :=
  match outcome with
  | Ok response => response
  | Raise e => internal_error e
  end.

(** Lines 184-253 on a request whose method and path are strings or
    absent. *)
Definition respond (db : DataStore) (draws : list nat) (time_draw : nat)
  (now : string) (request : Request) : Response :=
  let method := match req_method request with
                | Some m => m
                | None => "GET"
                end in
  let path := match req_path request with
              | Some p => p
              | None => EmptyString
              end in
  printed
    (if is_in "/recommendations" path && String.eqb method "GET"
     then recommend db draws time_draw now path
     else Ok not_found).

(** The handler, from the standard input on: the request may be of any
    JSON type, and so may its method and its path. *)
Definition main (db : DataStore) (draws : list nat) (time_draw : nat)
  (now : string) (input : Stdin) : Response :=
  printed
    (request <- request_of input ;;
     method <- get request "method" (JString "GET") ;;
     path <- get request "path" (JString EmptyString) ;;
     routed <- contains_item "/recommendations" path ;;
     if routed && is_get method then
       match path with
       | JString p => recommend db draws time_draw now p
       | _ => Raise AttributeError
       end
     else Ok not_found).

End Router.

(** ** IEEE 754 binary64 *)

Module Binary64.

(** The double nearest to [±n / d], ties to even. *)
Definition of_fraction (negative : bool) (n : N) (d : positive) : float :=
  match n with
  | N0 => SF2Prim (S754_zero negative)
  | Npos p => SF2Prim (SFdiv prec emax (S754_finite negative p 0)
                                       (S754_finite false d 0))
  end.

Definition of_numeral (x : numeral) : float :=
  match x with
  | Decimal neg m e => let (n, d) := fraction_of m e in of_fraction neg n d
  | Infinity neg => if neg then PrimFloat.neg_infinity else PrimFloat.infinity
  | NotANumber => PrimFloat.nan
  end.

(** [x ** 2], taken as the correctly rounded square; out of range for a
    finite [x] raises. *)
Definition pow2 (x : float) : result float :=
  let y := PrimFloat.mul x x in
  if is_infinity y && is_finite x then Raise OverflowError else Ok y.

Definition div (x y : float) : result float :=
  if PrimFloat.eqb y PrimFloat.zero then Raise ZeroDivisionError
  else Ok (PrimFloat.div x y).

(** [round(x, 3)]: the exact value of [x] is rounded half-even to a
    multiple of [1/1000], whose nearest double is returned; infinities,
    NaN and zeros round to themselves. *)
Definition round3 (x : float) : float :=
  match Prim2SF x with
  | S754_finite s m e =>
      let thousandths :=
        match e with
        | Zneg p => div_half_even (Npos m * 1000) (Pos.pow 2 p)
        | _ => (Npos m * N.pow 2 (Z.to_N e) * 1000)%N
        end in
      of_fraction s thousandths 1000
  | _ => x
  end.

End Binary64.

(** [x ** 0.5] is the [pow] of the C library, which is not the same on
    every platform: it is the parameter [pow_half]. *)
Definition binary64_with (pow_half : float -> float) : Arith float := {|
  lit m k := Binary64.of_fraction (m <? 0)%Z (Z.abs_N m) (pow10 k);
  float_of_string s := option_map Binary64.of_numeral (read_numeral s);
  fadd := PrimFloat.add;
  fmul := PrimFloat.mul;
  fdiv := Binary64.div;
  fpow2 := Binary64.pow2;
  fpow_half := pow_half;
  feqb := PrimFloat.eqb;
  fltb := PrimFloat.ltb;
  round3 := Binary64.round3
|}.

(** The arithmetic the examples are evaluated in: [x ** 0.5] correctly
    rounded, which CPython's is at every input evaluated in this file
    (1, 2, 3 and 0.14 among them). *)
#[export] Instance binary64 : Arith float := binary64_with PrimFloat.sqrt.

(** ** Exact arithmetic

    The real numbers: no rounding, no overflow, no infinities and no NaN
    (the numerals [inf] and [nan] denote no real number). *)

Module Exact.

Definition of_numeral (x : numeral) : option R :=
  match x with
  | Decimal neg m e =>
      let (n, d) := fraction_of m e in
      let v := (IZR (Z.of_N n) / IZR (Zpos d))%R in
      Some (if neg then (- v)%R else v)
  | Infinity _ => None
  | NotANumber => None
  end.

Definition div (x y : R) : result R :=
  if Req_dec_T y 0 then Raise ZeroDivisionError else Ok (x / y)%R.

Definition eqb (x y : R) : bool := if Req_dec_T x y then true else false.

Definition ltb (x y : R) : bool := if Rlt_dec x y then true else false.

(** Round-half-even of a real to an integer; [up y - 1] is its floor. *)
Definition round_half_even (y : R) : Z :=
  let n := (up y - 1)%Z in
  let r := (y - IZR n)%R in
  if Rlt_dec r (1 / 2) then n
  else if Rlt_dec (1 / 2) r then (n + 1)%Z
  else if Z.even n then n else (n + 1)%Z.

Definition round3 (x : R) : R := (IZR (round_half_even (x * 1000)) / 1000)%R.

(** The cosine formula over the reals, with total sums. *)

Definition Rsum (l : list R) : R := fold_right Rplus 0%R l.

(** The score of [k] in [B], zero when [B] has no [k]. *)
Definition get0 (B : @dict R) (k : string) : R :=
  match dict_get B k with
  | Some b => b
  | None => 0%R
  end.

Definition sumsq (A : @dict R) : R := Rsum (map (fun x => x * x)%R (values A)).

Definition dotR (A B : @dict R) : R :=
  Rsum (map (fun entry => snd entry * get0 B (fst entry))%R A).

(** What [cosine_similarity] returns over the reals. *)
Definition similarity (A B : @dict R) : R :=
  if negb (shares_category A B) then (1 / 10)%R
  else if Req_dec_T (R_sqrt.sqrt (sumsq A)) 0 then (1 / 10)%R
  else if Req_dec_T (R_sqrt.sqrt (sumsq B)) 0 then (1 / 10)%R
  else (dotR A B / (R_sqrt.sqrt (sumsq A) * R_sqrt.sqrt (sumsq B)))%R.

End Exact.

#[export] Instance exact : Arith R := {
  lit m k := (IZR m / IZR (Zpos (pow10 k)))%R;
  float_of_string s :=
    match read_numeral s with
    | Some x => Exact.of_numeral x
    | None => None
    end;
  fadd := Rplus;
  fmul := Rmult;
  fdiv := Exact.div;
  fpow2 x := Ok (x * x)%R;
  fpow_half := R_sqrt.sqrt;
  feqb := Exact.eqb;
  fltb := Exact.ltb;
  round3 := Exact.round3
}.

(** The one law of [<] that sorting relies on; both instances satisfy it
    (NaN included: a comparison with NaN is false). *)
Class ArithOrder (F : Type) {arith : Arith F} : Prop := {
  fltb_asym : forall x y : F, fltb x y = true -> fltb y x = false
}.

(** ** Example inputs *)

(** A user row with the given id and preference string. *)
Definition mk_user (n : Z) (prefs : option string) : User :=
  {| id := n; name := "user"; email := "user@example.com";
     preferences := prefs |}.




Definition ones3 : @dict float :=
  [("a", PrimFloat.one); ("b", PrimFloat.one); ("c", PrimFloat.one)].

(** The scores 0.1, 0.2, 0.3 and the unit scores listed backwards, as
    parsed from ["a:0.1,b:0.2,c:0.3"] and ["c:1,b:1,a:1"]. *)
Definition tenths : @dict float :=
  [("a", 0x1.999999999999ap-4%float); ("b", 0x1.999999999999ap-3%float);
   ("c", 0x1.3333333333333p-2%float)].

Definition ones_cba : @dict float :=
  [("c", PrimFloat.one); ("b", PrimFloat.one); ("a", PrimFloat.one)].

(** The order in which CPython 3.11 iterates [set(ks1) & set(ks2)] for the
    keys of [ones_cba] and [tenths] under PYTHONHASHSEED=58: b, c, a; for
    other keys, the order of the first operand stands in. *)
Definition seed_58_intersection (ks1 ks2 : list string) : list string :=
  if list_eq_dec string_dec ks1 ["c"; "b"; "a"] then
    if list_eq_dec string_dec ks2 ["a"; "b"; "c"] then ["b"; "c"; "a"]
    else filter (fun k => existsb (String.eqb k) ks2) ks1
  else filter (fun k => existsb (String.eqb k) ks2) ks1.

(** The end-to-end scenario.

    Four users: users 2 and 3 share a category with user 1, user 4 shares
    none. *)

Definition scenario_users : list User :=
  [ mk_user 1 (Some "technology:1.0");
    mk_user 2 (Some "technology:0.5,music:0.5");
    mk_user 3 (Some "technology:0.2,sports:0.9");
    mk_user 4 (Some "cooking:1.0") ].

Definition scenario : DataStore :=
  {| all_users := scenario_users;
     query_user := fun n => find (fun u => (id u =? n)%Z) scenario_users |}.

(** Six users: more than three are left for user 1 to be compared with. *)
Definition crowd : DataStore :=
  {| all_users := scenario_users
                  ++ [ mk_user 5 (Some "technology:0.9");
                       mk_user 6 (Some "music:1.0") ];
     query_user := fun n => find (fun u => (id u =? n)%Z) scenario_users |}.

(** Two maps over the reals: [{"a": 1}] and [{"a": 1, "b": 2}]. *)
Definition unit_a : @dict R := [("a", 1%R)].

Definition a1_b2 : @dict R := [("a", 1%R); ("b", 2%R)].

(** * Facts about the building blocks *)

Lemma bind_ok_inv {A B : Type} (c : result A) (k : A -> result B) (b : B) :
  bind c k = Ok b -> exists a, c = Ok a /\ k a = Ok b.
Proof. destruct c as [a|e]; simpl; [eauto | discriminate]. Qed.

Lemma bind_raise_inv {A B : Type} (c : result A) (k : A -> result B) (e : exn) :
  bind c k = Raise e -> c = Raise e \/ exists a, c = Ok a /\ k a = Raise e.
Proof. destruct c as [a|e']; simpl; [eauto | intros [= ->]; auto]. Qed.

Section MonadFacts.

Context {A B : Type}.

Lemma mapM_ok_Forall2 (f : A -> result B) (l : list A) (l' : list B) :
  mapM f l = Ok l' -> Forall2 (fun x y => f x = Ok y) l l'.
Proof.
  revert l'; induction l as [|x l IH]; simpl; intros l' H.
  - injection H as <-. constructor.
  - apply bind_ok_inv in H as (y & Hy & H).
    apply bind_ok_inv in H as (ys & Hys & H).
    injection H as <-. constructor; auto.
Qed.

Lemma mapM_total (f : A -> result B) (g : A -> B) (l : list A) :
  (forall x, In x l -> f x = Ok (g x)) -> mapM f l = Ok (map g l).
Proof.
  induction l as [|x l IH]; simpl; intros H; [reflexivity|].
  rewrite (H x) by auto. simpl. rewrite IH by auto. reflexivity.
Qed.

End MonadFacts.

Section StringFacts.

Variable sep : ascii.

Lemma split_not_nil (s : string) : split sep s <> [].
Proof.
  destruct s as [|a s]; simpl; [discriminate|].
  destruct (Ascii.eqb a sep); [discriminate|].
  destruct (split sep s); discriminate.
Qed.

Lemma join_split (s : string) : join sep (split sep s) = s.
Proof.
  induction s as [|a s IH]; simpl; [reflexivity|].
  pose proof (split_not_nil s) as Hne.
  destruct (Ascii.eqb a sep) eqn:E.
  - apply Ascii.eqb_eq in E. subst a.
    destruct (split sep s) as [|w ws]; [contradiction|].
    change (join sep (EmptyString :: w :: ws))
      with (String sep (join sep (w :: ws))).
    now rewrite IH.
  - destruct (split sep s) as [|w ws]; [contradiction|].
    destruct ws as [|w' ws].
    + simpl in *. now rewrite IH.
    + change (join sep (String a w :: w' :: ws))
        with (String a (join sep (w :: w' :: ws))).
      now rewrite IH.
Qed.

Lemma split_pieces (s : string) :
  Forall (fun w => contains sep w = false) (split sep s).
Proof.
  induction s as [|a s IH]; simpl.
  - repeat constructor.
  - destruct (Ascii.eqb a sep) eqn:E.
    + constructor; [reflexivity | exact IH].
    + destruct (split sep s) as [|w ws].
      * constructor; [simpl; now rewrite E | constructor].
      * inversion IH; subst. constructor; [simpl; now rewrite E | assumption].
Qed.

Lemma split_max1_found (s : string) :
  contains sep s = true ->
  exists a b, split_max1 sep s = [a; b]
              /\ s = (a ++ String sep b)%string
              /\ contains sep a = false.
Proof.
  induction s as [|c s IH]; simpl; [discriminate|].
  destruct (Ascii.eqb c sep) eqn:E; simpl; intros H.
  - apply Ascii.eqb_eq in E. subst c.
    exists EmptyString, s. auto.
  - destruct (IH H) as (a & b & -> & -> & Ha).
    exists (String c a), b. simpl. rewrite E. auto.
Qed.

Lemma split_max1_missing (s : string) :
  contains sep s = false -> split_max1 sep s = [s].
Proof.
  induction s as [|c s IH]; simpl; [reflexivity|].
  destruct (Ascii.eqb c sep); simpl; [discriminate|].
  intros H. now rewrite (IH H).
Qed.

Lemma contains_append (a b : string) :
  contains sep (a ++ String sep b) = true.
Proof.
  induction a as [|c a IH]; simpl.
  - now rewrite Ascii.eqb_refl.
  - rewrite IH. apply orb_true_r.
Qed.

Lemma split_max1_append (a b : string) :
  contains sep a = false -> split_max1 sep (a ++ String sep b) = [a; b].
Proof.
  induction a as [|c a IH]; simpl.
  - now rewrite Ascii.eqb_refl.
  - destruct (Ascii.eqb c sep); simpl; [discriminate|].
    intros H. now rewrite (IH H).
Qed.

End StringFacts.

Lemma truthy_false (o : option string) :
  truthy o = false <-> o = None \/ o = Some EmptyString.
Proof.
  destruct o as [s|]; simpl.
  - rewrite negb_false_iff, String.eqb_eq.
    split; [intros ->; auto | intros [H|[= ->]]; [discriminate | reflexivity]].
  - split; auto.
Qed.

Lemma truthy_id_true (user_id : option Z) :
  truthy_id user_id = true <-> exists n, user_id = Some n /\ n <> 0%Z.
Proof.
  destruct user_id as [n|]; simpl.
  - rewrite negb_true_iff, Z.eqb_neq.
    split; [eauto | intros (m & [= ->] & H); exact H].
  - split; [discriminate | intros (m & H & _); discriminate].
Qed.

Section DictFacts.

Context {F : Type} {arith : Arith F}.
Context {sets : SetIteration} {sorting : LongSort F}.

Implicit Types (d A B : @dict F) (k cat : string).

Lemma dict_get_some_in d k v : dict_get d k = Some v -> In (k, v) d.
Proof.
  induction d as [|[k' v'] d IH]; simpl; [discriminate|].
  destruct (String.eqb k' k) eqn:E.
  - apply String.eqb_eq in E. intros [= ->]. subst. auto.
  - auto.
Qed.

Lemma dict_get_none d k : dict_get d k = None <-> ~ In k (keys d).
Proof.
  induction d as [|[k' v'] d IH]; simpl.
  - tauto.
  - destruct (String.eqb k' k) eqn:E.
    + apply String.eqb_eq in E. split; [discriminate | intros H; exfalso; auto].
    + apply String.eqb_neq in E. rewrite IH. tauto.
Qed.

Lemma dict_get_wf d k v : dict_wf d -> In (k, v) d -> dict_get d k = Some v.
Proof.
  unfold dict_wf. induction d as [|[k' v'] d IH]; simpl; [tauto|].
  intros Hwf [H|H]; apply NoDup_cons_iff in Hwf as [Hk' Hd].
  - injection H as -> ->. now rewrite String.eqb_refl.
  - destruct (String.eqb k' k) eqn:E; [|auto].
    apply String.eqb_eq in E. subst k'. exfalso. apply Hk'.
    change k with (fst (k, v)). now apply in_map.
Qed.

Lemma keys_dict_set k v d x :
  In x (keys (dict_set k v d)) <-> x = k \/ In x (keys d).
Proof.
  induction d as [|[k' v'] d IH]; simpl.
  - intuition.
  - destruct (String.eqb k' k) eqn:E; simpl.
    + apply String.eqb_eq in E. subst. intuition.
    + rewrite IH. intuition.
Qed.

Lemma dict_set_wf k v d : dict_wf d -> dict_wf (dict_set k v d).
Proof.
  unfold dict_wf. induction d as [|[k' v'] d IH]; simpl; intros Hwf.
  - repeat constructor. simpl. tauto.
  - apply NoDup_cons_iff in Hwf as [Hk' Hd].
    destruct (String.eqb k' k) eqn:E; simpl.
    + constructor; assumption.
    + apply String.eqb_neq in E. constructor; [|auto].
      rewrite keys_dict_set. intros [->|H]; [now apply E | contradiction].
Qed.

Lemma dict_get_set k v d k' :
  dict_get (dict_set k v d) k' = if String.eqb k k' then Some v else dict_get d k'.
Proof.
  induction d as [|[k0 v0] d IH]; simpl.
  - reflexivity.
  - destruct (String.eqb k0 k) eqn:E; simpl.
    + apply String.eqb_eq in E. subst k0.
      destruct (String.eqb k k'); reflexivity.
    + rewrite IH. destruct (String.eqb k0 k') eqn:E'; [|reflexivity].
      apply String.eqb_eq in E'. subst k0. now rewrite String.eqb_sym, E.
Qed.

End DictFacts.

(** ** The preference parser *)

Section ParserFacts.

Context {F : Type} {arith : Arith F}.
Context {sets : SetIteration} {sorting : LongSort F}.

Lemma parse_pref_skip (prefs : dict) (pref : string) :
  contains ":" pref = false -> parse_pref prefs pref = Ok prefs.
Proof. unfold parse_pref. now intros ->. Qed.

Lemma parse_pref_pair (prefs : dict) (cat score : string) :
  contains ":" cat = false ->
  parse_pref prefs (cat ++ String ":" score) =
    match float_of_string score with
    | Some x => Ok (dict_set cat x prefs)
    | None => Raise ValueError
    end.
Proof.
  intros H. unfold parse_pref.
  now rewrite contains_append, split_max1_append.
Qed.

(** Every piece is skipped or is [cat:score] with a colon-free [cat]. *)
Lemma piece_cases (pref : string) :
  contains ":" pref = false \/
  exists cat score, pref = (cat ++ String ":" score)%string
                    /\ contains ":" cat = false.
Proof.
  destruct (contains ":" pref) eqn:E; [right | now left].
  destruct (split_max1_found _ _ E) as (a & b & _ & -> & Ha). eauto.
Qed.

Lemma append_colon_inj (cat cat' score score' : string) :
  contains ":" cat = false -> contains ":" cat' = false ->
  (cat ++ String ":" score)%string = (cat' ++ String ":" score')%string ->
  cat = cat' /\ score = score'.
Proof.
  revert cat'. induction cat as [|c cat IH]; intros [|c' cat']; simpl.
  - intros _ _ [= ->]. auto.
  - intros _ H [= <- _]. simpl in H. discriminate.
  - intros H _ [= -> _]. simpl in H. discriminate.
  - destruct (Ascii.eqb c ":") eqn:E, (Ascii.eqb c' ":") eqn:E'; simpl;
      try discriminate.
    intros H H' [= -> Heq]. destruct (IH _ H H' Heq) as [-> ->]. auto.
Qed.

Lemma parse_pref_raise (prefs : dict) (pref : string) (e : exn) :
  parse_pref prefs pref = Raise e <->
  e = ValueError /\
  exists cat score, pref = (cat ++ String ":" score)%string
                    /\ contains ":" cat = false
                    /\ float_of_string score = None.
Proof.
  destruct (piece_cases pref) as [H | (cat & score & -> & Hcat)].
  - rewrite parse_pref_skip by assumption. split; [discriminate|].
    intros (_ & cat & score & -> & _ & _).
    now rewrite contains_append in H.
  - rewrite parse_pref_pair by assumption. split.
    + destruct (float_of_string score) eqn:E; [discriminate|].
      intros [= <-]. split; [reflexivity|]. eauto.
    + intros (-> & cat' & score' & Heq & Hcat' & Hnone).
      apply append_colon_inj in Heq as [-> ->]; auto.
      now rewrite Hnone.
Qed.

Lemma parse_pref_wf (prefs prefs' : dict) (pref : string) :
  dict_wf prefs -> parse_pref prefs pref = Ok prefs' -> dict_wf prefs'.
Proof.
  intros Hwf. destruct (piece_cases pref) as [H | (cat & score & -> & Hcat)].
  - rewrite parse_pref_skip by assumption. now intros [= <-].
  - rewrite parse_pref_pair by assumption.
    destruct (float_of_string score); [|discriminate].
    intros [= <-]. now apply dict_set_wf.
Qed.

Lemma parse_pieces_wf (pieces : list string) (prefs prefs' : dict) :
  dict_wf prefs -> foldM parse_pref pieces prefs = Ok prefs' -> dict_wf prefs'.
Proof.
  revert prefs. induction pieces as [|pref pieces IH]; simpl; intros prefs Hwf H.
  - now injection H as <-.
  - apply bind_ok_inv in H as (acc & Hacc & H).
    eapply IH; [|exact H]. eapply parse_pref_wf; eassumption.
Qed.

Lemma parse_preferences_wf (s : string) (prefs : dict) :
  parse_preferences s = Ok prefs -> dict_wf prefs.
Proof. apply parse_pieces_wf. constructor. Qed.

Lemma parse_pieces_raise (pieces : list string) (prefs : dict) (e : exn) :
  foldM parse_pref pieces prefs = Raise e <->
  e = ValueError /\
  exists pref cat score, In pref pieces
                         /\ pref = (cat ++ String ":" score)%string
                         /\ contains ":" cat = false
                         /\ float_of_string score = None.
Proof.
  revert prefs. induction pieces as [|pref pieces IH]; simpl; intros prefs.
  - split; [discriminate | intros (_ & ? & ? & ? & [] & _)].
  - split.
    + intros H. apply bind_raise_inv in H as [H | (acc & _ & H)].
      * apply parse_pref_raise in H as (-> & cat & score & H).
        split; [reflexivity|]. exists pref, cat, score. tauto.
      * apply IH in H as (-> & p & cat & score & Hin & H).
        split; [reflexivity|]. exists p, cat, score. tauto.
    + intros (-> & p & cat & score & [<-|Hin] & H).
      * assert (Hr : parse_pref prefs pref = Raise ValueError)
          by (apply parse_pref_raise; eauto).
        now rewrite Hr.
      * destruct (parse_pref prefs pref) as [acc|e'] eqn:E; simpl.
        -- apply IH. split; [reflexivity|]. exists p, cat, score. tauto.
        -- apply parse_pref_raise in E as [-> _]. reflexivity.
Qed.


End ParserFacts.

(** ** The similarity engine against its specification *)

Section SimilarityFacts.

Context {F : Type} {arith : Arith F}.
Context {sets : SetIteration} {sorting : LongSort F}.

Implicit Types (A B : @dict F).

Lemma has_key_existsb B (cat : string) :
  match dict_get B cat with Some _ => true | None => false end =
  existsb (String.eqb cat) (keys B).
Proof.
  induction B as [|[k v] B IH]; simpl; [reflexivity|].
  rewrite (String.eqb_sym cat k). destruct (String.eqb k cat); auto.
Qed.

Lemma filter_nil_existsb {X : Type} (p : X -> bool) (l : list X) :
  filter p l = [] <-> existsb p l = false.
Proof.
  induction l as [|x l IH]; simpl; [tauto|].
  destruct (p x); simpl; [split; discriminate | exact IH].
Qed.

Lemma dict_get_in_keys B (cat : string) :
  In cat (keys B) -> exists b, dict_get B cat = Some b.
Proof.
  intros H. destruct (dict_get B cat) as [b|] eqn:E; [eauto|].
  apply dict_get_none in E. contradiction.
Qed.

Lemma shares_category_iff A B :
  shares_category A B = true <->
  exists cat, In cat (keys A) /\ In cat (keys B).
Proof.
  unfold shares_category. rewrite existsb_exists. split.
  - intros (cat & HA & H). apply existsb_exists in H as (cat' & HB & H).
    apply String.eqb_eq in H. subst cat'. eauto.
  - intros (cat & HA & HB). exists cat. split; [assumption|].
    apply existsb_exists. exists cat. split; [assumption|].
    apply String.eqb_refl.
Qed.

Lemma shares_category_sym A B :
  shares_category A B = shares_category B A.
Proof.
  destruct (shares_category A B) eqn:E, (shares_category B A) eqn:E';
    try reflexivity.
  - apply shares_category_iff in E as (cat & HA & HB).
    rewrite <- E'. symmetry. apply shares_category_iff. eauto.
  - apply shares_category_iff in E' as (cat & HB & HA).
    rewrite <- E. apply shares_category_iff. eauto.
Qed.

Lemma shares_category_self A : A <> [] -> shares_category A A = true.
Proof.
  destruct A as [|[k a] A]; [congruence|]. intros _.
  apply shares_category_iff. exists k. simpl. auto.
Qed.

(** The set of the shared categories lists each key of [A] that [B] has
    too, once. *)
Lemma common_categories_perm A B :
  dict_wf A ->
  Permutation (common_categories A B)
    (filter (fun k => existsb (String.eqb k) (keys B)) (keys A)).
Proof. intros H. now apply set_and_perm. Qed.

Lemma common_categories_shared A B (cat : string) :
  dict_wf A ->
  In cat (common_categories A B) <-> In cat (keys A) /\ In cat (keys B).
Proof.
  intros HA. pose proof (common_categories_perm A B HA) as Hperm. split.
  - intros H. apply (Permutation_in _ Hperm) in H.
    apply filter_In in H as [H1 H2]. split; [assumption|].
    apply existsb_exists in H2 as (k & Hk & H2).
    apply String.eqb_eq in H2. now subst k.
  - intros [H1 H2]. apply (Permutation_in _ (Permutation_sym Hperm)).
    apply filter_In. split; [assumption|].
    apply existsb_exists. exists cat. split; [assumption|].
    apply String.eqb_refl.
Qed.

Lemma common_categories_nil A B :
  dict_wf A ->
  common_categories A B = [] <-> shares_category A B = false.
Proof.
  intros HA. split.
  - intros H. destruct (shares_category A B) eqn:E; [|reflexivity].
    apply shares_category_iff in E as (cat & Hcat).
    apply (common_categories_shared A B cat HA) in Hcat.
    rewrite H in Hcat. destruct Hcat.
  - intros H. destruct (common_categories A B) as [|cat cats] eqn:E;
      [reflexivity|].
    assert (Hin : In cat (common_categories A B)) by (rewrite E; now left).
    apply (common_categories_shared A B cat HA) in Hin.
    assert (Hs : shares_category A B = true)
      by (apply shares_category_iff; eauto).
    congruence.
Qed.

Lemma common_categories_NoDup A B :
  dict_wf A -> NoDup (common_categories A B).
Proof.
  intros HA.
  apply (Permutation_NoDup (Permutation_sym (common_categories_perm A B HA))).
  now apply NoDup_filter.
Qed.

(** The products the handler computes by key are the shared products. *)
Lemma products_over (A B : dict) (cats : list string) :
  (forall cat, In cat cats -> In cat (keys A) /\ In cat (keys B)) ->
  mapM (fun cat => x <- getitem A cat ;; y <- getitem B cat ;; Ok (fmul x y))
       cats
  = Ok (flat_map (fun cat => match dict_get A cat, dict_get B cat with
                             | Some a, Some b => [fmul a b]
                             | _, _ => []
                             end) cats).
Proof.
  induction cats as [|cat cats IH]; simpl; intros H; [reflexivity|].
  destruct (H cat (or_introl eq_refl)) as [HA HB].
  destruct (dict_get_in_keys A cat HA) as (a & Ea).
  destruct (dict_get_in_keys B cat HB) as (b & Eb).
  unfold getitem at 1 2. rewrite Ea, Eb. simpl.
  rewrite IH by auto. reflexivity.
Qed.

Lemma products_by_key A B :
  dict_wf A ->
  mapM (fun cat => x <- getitem A cat ;; y <- getitem B cat ;; Ok (fmul x y))
       (common_categories A B) = Ok (shared_products A B).
Proof.
  intros HA. unfold shared_products. apply products_over.
  intros cat. now apply common_categories_shared.
Qed.

Lemma squares_by_key A (A0 : dict) :
  (forall k v, In (k, v) A0 -> dict_get A k = Some v) ->
  mapM (fun cat => x <- getitem A cat ;; fpow2 x) (keys A0) =
  mapM fpow2 (values A0).
Proof.
  induction A0 as [|[k v] A0 IH]; simpl; intros H; [reflexivity|].
  unfold getitem at 1. rewrite (H k v) by auto. simpl.
  now rewrite IH by auto.
Qed.

Lemma magnitude_l2_norm A : dict_wf A -> magnitude A = l2_norm A.
Proof.
  intros Hwf. unfold magnitude, l2_norm.
  now rewrite (squares_by_key A A) by (intros; now apply dict_get_wf).
Qed.

Lemma cosine_similarity_spec A B :
  dict_wf A -> dict_wf B -> cosine_similarity A B = similarity_by_norms A B.
Proof.
  intros HA HB. unfold cosine_similarity, similarity_by_norms.
  rewrite (products_by_key A B HA).
  rewrite !magnitude_l2_norm by assumption.
  destruct (common_categories A B) as [|cat cats] eqn:E.
  - apply (common_categories_nil A B HA) in E. rewrite E. simpl.
    now destruct (is_empty A || is_empty B).
  - assert (Hin : In cat (common_categories A B)) by (rewrite E; now left).
    apply (common_categories_shared A B cat HA) in Hin as [HinA HinB].
    destruct (shares_category A B) eqn:E'.
    + destruct A; [destruct HinA|]. destruct B; [destruct HinB|]. reflexivity.
    + apply (common_categories_nil A B HA) in E'. congruence.
Qed.

Lemma calculate_user_similarity_spec (user1 user2 : User) :
  calculate_user_similarity user1 user2 =
    if negb (truthy (preferences user1)) || negb (truthy (preferences user2))
    then Ok (lit 1 1)
    else A <- parse_preferences (raw (preferences user1)) ;;
         B <- parse_preferences (raw (preferences user2)) ;;
         similarity_by_norms A B.
Proof.
  unfold calculate_user_similarity.
  destruct (negb (truthy (preferences user1)) || negb (truthy (preferences user2)));
    [reflexivity|].
  destruct (parse_preferences (raw (preferences user1))) as [A|e] eqn:EA;
    [|reflexivity].
  destruct (parse_preferences (raw (preferences user2))) as [B|e] eqn:EB;
    [|reflexivity].
  simpl. apply cosine_similarity_spec; eapply parse_preferences_wf; eassumption.
Qed.


End SimilarityFacts.

(** ** Sorting *)

Section SortFacts.

Context {F : Type} {arith : Arith F} {X : Type}.
Context {sets : SetIteration} {sorting : LongSort F}.

Variable key : X -> F.

Lemma insert_desc_perm (x : X) (l : list X) :
  Permutation (insert_desc key x l) (x :: l).
Proof.
  induction l as [|y l IH]; simpl; [reflexivity|].
  destruct (fltb (key x) (key y)); [|reflexivity].
  rewrite IH. apply perm_swap.
Qed.

Lemma sort_desc_perm (l : list X) : Permutation (sort_desc key l) l.
Proof.
  induction l as [|x l IH]; simpl; [reflexivity|].
  now rewrite insert_desc_perm, IH.
Qed.

Lemma sort_desc_length (l : list X) : List.length (sort_desc key l) = List.length l.
Proof. apply Permutation_length, sort_desc_perm. Qed.

Lemma insert_desc_hd (x y : X) (l : list X) :
  not_less key y x -> HdRel (not_less key) y l -> HdRel (not_less key) y (insert_desc key x l).
Proof.
  intros Hyx Hl. destruct l as [|z l]; simpl.
  - now constructor.
  - destruct (fltb (key x) (key z)); constructor; [|assumption].
    now inversion Hl.
Qed.

Lemma insert_desc_sorted `{!ArithOrder F} (x : X) (l : list X) :
  Sorted (not_less key) l -> Sorted (not_less key) (insert_desc key x l).
Proof.
  induction l as [|y l IH]; simpl; intros Hs.
  - repeat constructor.
  - destruct (fltb (key x) (key y)) eqn:E.
    + inversion Hs as [|? ? Hl Hhd]; subst.
      constructor; [now apply IH|].
      apply insert_desc_hd; [|assumption]. now apply fltb_asym.
    + constructor; [assumption|]. now constructor.
Qed.

Lemma sort_desc_sorted `{!ArithOrder F} (l : list X) :
  Sorted (not_less key) (sort_desc key l).
Proof.
  induction l as [|x l IH]; simpl; [constructor|].
  now apply insert_desc_sorted.
Qed.




Lemma in_firstn (n : nat) (l : list X) (x : X) : In x (firstn n l) -> In x l.
Proof.
  intros H. rewrite <- (firstn_skipn n l). apply in_or_app. now left.
Qed.


End SortFacts.

(** ** The parameters the examples are evaluated with *)

(** A set that lists the shared keys in the order of the first operand. *)
Definition first_operand_order : SetIteration :=
  {| set_and ks1 ks2 := filter (fun k => existsb (String.eqb k) ks2) ks1;
     set_and_perm ks1 ks2 _ := Permutation_refl _ |}.

(** Merges that give the stable sort. *)
Definition stable_merge {F : Type} {arith : Arith F} : LongSort F :=
  {| merge_sort A key l := sort_desc key l;
     merge_sort_perm A key l := sort_desc_perm key l;
     merge_sort_stable A key l _ := eq_refl |}.


(** ** Sorted lists under a relation that is transitive on their elements *)

Section Dominance.

Context {X : Type}.

Variable R : X -> X -> Prop.

Lemma sorted_hd_all (x : X) (l : list X) :
  Sorted R (x :: l) ->
  (forall a b c, In a (x :: l) -> In b (x :: l) -> In c (x :: l) ->
                 R a b -> R b c -> R a c) ->
  Forall (R x) l.
Proof.
  revert x. induction l as [|y l IH]; intros x Hs Htrans; [constructor|].
  inversion Hs as [|? ? Hs' Hhd]; subst. inversion Hhd as [|? ? Hxy]; subst.
  constructor; [assumption|].
  assert (Hy : Forall (R y) l).
  { apply IH; [assumption|]. intros a b c Ha Hb Hc.
    apply Htrans; now right. }
  apply Forall_forall. intros z Hz. rewrite Forall_forall in Hy.
  apply (Htrans x y z); simpl; auto.
Qed.

Lemma sorted_dominates (l1 l2 : list X) :
  Sorted R (l1 ++ l2) ->
  (forall a b c, In a (l1 ++ l2) -> In b (l1 ++ l2) -> In c (l1 ++ l2) ->
                 R a b -> R b c -> R a c) ->
  forall a b, In a l1 -> In b l2 -> R a b.
Proof.
  induction l1 as [|x l1 IH]; simpl; intros Hs Htrans a b Ha Hb; [tauto|].
  destruct Ha as [<-|Ha].
  - pose proof (sorted_hd_all x (l1 ++ l2) Hs Htrans) as Hall.
    rewrite Forall_forall in Hall. apply Hall, in_or_app. now right.
  - apply IH; try assumption.
    + now inversion Hs.
    + intros u v w Hu Hv Hw. apply Htrans; now right.
Qed.

End Dominance.

(** ** [list.sort] *)

Section ListSortFacts.

Context {F : Type} {arith : Arith F} {order : ArithOrder F} {X : Type}.

Variable key : X -> F.

Lemma binary_insert_perm (sorted : list X) (pivot : X) :
  Permutation (binary_insert key sorted pivot) (pivot :: sorted).
Proof.
  unfold binary_insert. symmetry.
  rewrite <- (firstn_skipn
                (bisect key pivot sorted (List.length sorted) 0
                   (List.length sorted)) sorted) at 1.
  apply Permutation_middle.
Qed.

Lemma binarysort_perm (rest run : list X) :
  Permutation (binarysort key run rest) (run ++ rest).
Proof.
  unfold binarysort. revert run.
  induction rest as [|x rest IH]; intros run; simpl.
  - now rewrite app_nil_r.
  - rewrite IH, binary_insert_perm. simpl. apply Permutation_middle.
Qed.

Lemma short_sort_perm (l : list X) : Permutation (short_sort key l) l.
Proof.
  unfold short_sort. destruct (count_run key (rev l)) as [n descending].
  eapply Permutation_trans; [symmetry; apply Permutation_rev|].
  eapply Permutation_trans; [apply binarysort_perm|].
  eapply Permutation_trans; [|symmetry; apply Permutation_rev].
  apply Permutation_trans with (firstn n (rev l) ++ skipn n (rev l));
    [|now rewrite firstn_skipn].
  apply Permutation_app_tail.
  destruct descending; [symmetry; apply Permutation_rev | reflexivity].
Qed.

Lemma list_sort_perm {sorting : LongSort F} (l : list X) :
  Permutation (list_sort key l) l.
Proof.
  unfold list_sort. destruct (List.length l <? 64)%nat.
  - apply short_sort_perm.
  - apply merge_sort_perm.
Qed.

Lemma list_sort_length {sorting : LongSort F} (l : list X) :
  List.length (list_sort key l) = List.length l.
Proof. apply Permutation_length, list_sort_perm. Qed.

(** *** Where [<] orders the keys, CPython's sort is the stable sort *)

Lemma consistent_incl (ks ks' : list F) :
  incl ks' ks -> consistent ks -> consistent ks'.
Proof. intros Hincl H x y z Hx Hy Hz. apply H; now apply Hincl. Qed.

Lemma consistent_lt_trans (ks : list F) (x y z : F) :
  consistent ks -> In x ks -> In y ks -> In z ks ->
  fltb x y = true -> fltb y z = true -> fltb x z = true.
Proof.
  intros H Hx Hy Hz Hxy Hyz. destruct (fltb x z) eqn:E; [reflexivity|].
  pose proof (fltb_asym _ _ Hyz) as Hzy.
  rewrite (H x z y Hx Hz Hy E Hzy) in Hxy. discriminate.
Qed.

Lemma ins_last (p : list X) (x : X) :
  match rev p with
  | [] => True
  | e :: _ => fltb (key x) (key e) = false
  end ->
  insert_asc key p x = p ++ [x].
Proof.
  unfold insert_asc. intros H. rewrite <- (rev_involutive p) at 2.
  destruct (rev p) as [|e t]; [reflexivity|].
  simpl. now rewrite H.
Qed.

Lemma ascending_run (r p : list X) :
  Sorted (fun a b => fltb (key b) (key a) = false) r ->
  match r, rev p with
  | x :: _, e :: _ => fltb (key x) (key e) = false
  | _, _ => True
  end ->
  fold_left (insert_asc key) r p = p ++ r.
Proof.
  revert p. induction r as [|x r IH]; intros p Hs Hp; simpl.
  - now rewrite app_nil_r.
  - rewrite ins_last by (destruct (rev p); auto).
    inversion Hs as [|? ? Hs' Hhd]; subst.
    rewrite IH; [now rewrite <- app_assoc | assumption|].
    rewrite rev_app_distr. simpl.
    destruct r as [|y r]; [exact I|]. now inversion Hhd.
Qed.

Lemma insert_desc_behind (q : list X) (x : X) :
  Forall (fun y => fltb (key x) (key y) = true) q ->
  insert_desc key x q = q ++ [x].
Proof.
  induction 1 as [|y q Hy _ IH]; simpl; [reflexivity|].
  now rewrite Hy, IH.
Qed.

Lemma ins_front (p : list X) (x : X) :
  Forall (fun y => fltb (key x) (key y) = true) p -> insert_asc key p x = x :: p.
Proof.
  intros H. unfold insert_asc. rewrite insert_desc_behind.
  - rewrite rev_app_distr. simpl. now rewrite rev_involutive.
  - apply Forall_forall. intros y Hy. rewrite Forall_forall in H.
    apply H. now apply in_rev.
Qed.

Lemma descending_run (r p : list X) :
  Sorted (fun a b => fltb (key b) (key a) = true) r ->
  consistent (map key r) ->
  (forall x y, In x r -> In y p -> fltb (key x) (key y) = true) ->
  fold_left (insert_asc key) r p = rev r ++ p.
Proof.
  revert p. induction r as [|x r IH]; intros p Hs Hc Hp; simpl;
    [reflexivity|].
  rewrite ins_front
    by (apply Forall_forall; intros y Hy; apply Hp; [now left | assumption]).
  assert (Hall : Forall (fun b => fltb (key b) (key x) = true) r).
  { apply (sorted_hd_all (fun a b => fltb (key b) (key a) = true) x r Hs).
    intros a b c Ha Hb Hc' Hab Hbc.
    apply (consistent_lt_trans (map key (x :: r)) (key c) (key b) (key a));
      try assumption; now apply in_map. }
  inversion Hs as [|? ? Hs' _]; subst.
  rewrite IH.
  - now rewrite <- app_assoc.
  - assumption.
  - apply (consistent_incl (map key (x :: r))); [|assumption].
    intros k Hk. now right.
  - intros x' y Hx' [<-|Hy].
    + rewrite Forall_forall in Hall. now apply Hall.
    + apply Hp; [now right | assumption].
Qed.

(** A descending list splits at [x]: the elements above [x], then the
    others. *)
Lemma split_at (q : list X) (x : X) :
  Sorted (not_less key) q ->
  consistent (key x :: map key q) ->
  exists q2 q1,
    q = q2 ++ q1
    /\ Forall (fun y => fltb (key x) (key y) = true) q2
    /\ Forall (fun y => fltb (key x) (key y) = false) q1.
Proof.
  induction q as [|y q IH]; intros Hs Hc.
  - exists [], []. repeat constructor.
  - destruct (fltb (key x) (key y)) eqn:E.
    + destruct IH as (q2 & q1 & -> & H2 & H1).
      * now inversion Hs.
      * apply (consistent_incl (key x :: map key (y :: q))); [|assumption].
        intros k [<-|Hk]; [now left | now right; right].
      * exists (y :: q2), q1. split; [reflexivity|]. split; [|assumption].
        now constructor.
    + exists [], (y :: q). split; [reflexivity|]. split; [constructor|].
      constructor; [assumption|].
      assert (Hall : Forall (not_less key y) q).
      { apply (sorted_hd_all (not_less key) y q Hs).
        intros a b c Ha Hb Hc' Hab Hbc. unfold not_less in *.
        apply (Hc (key a) (key b) (key c)); try assumption;
          right; now apply in_map. }
      apply Forall_forall. intros z Hz. rewrite Forall_forall in Hall.
      apply (Hc (key x) (key y) (key z)); [now left | right; now left | |
                                           assumption | now apply Hall].
      right. right. now apply in_map.
Qed.

Lemma insert_desc_split (q2 q1 : list X) (x : X) :
  Forall (fun y => fltb (key x) (key y) = true) q2 ->
  Forall (fun y => fltb (key x) (key y) = false) q1 ->
  insert_desc key x (q2 ++ q1) = q2 ++ x :: q1.
Proof.
  intros H2 H1. induction H2 as [|y q2 Hy _ IH]; simpl.
  - destruct H1 as [|y q1 Hy _]; simpl; [reflexivity | now rewrite Hy].
  - now rewrite Hy, IH.
Qed.

Lemma bisect_boundary (x : X) (p1 p2 : list X) (fuel l r : nat) :
  Forall (fun y => fltb (key x) (key y) = false) p1 ->
  Forall (fun y => fltb (key x) (key y) = true) p2 ->
  (l <= List.length p1)%nat -> (List.length p1 <= r)%nat ->
  (r <= List.length (p1 ++ p2))%nat -> (r - l <= fuel)%nat ->
  bisect key x (p1 ++ p2) fuel l r = List.length p1.
Proof.
  intros H1 H2. revert l r.
  induction fuel as [|fuel IH]; intros l r Hl Hr Hlen Hfuel; cbn [bisect].
  - lia.
  - destruct (l <? r)%nat eqn:E.
    + apply Nat.ltb_lt in E.
      assert (Hp : (l + (r - l) / 2 < r)%nat).
      { assert ((r - l) / 2 < r - l)%nat by (apply Nat.div_lt; lia). lia. }
      set (p := (l + (r - l) / 2)%nat) in *.
      destruct (Nat.lt_ge_cases p (List.length p1)) as [Hin|Hout].
      * rewrite app_nth1 by assumption.
        rewrite Forall_forall in H1.
        rewrite (H1 (nth p p1 x)) by (now apply nth_In).
        apply IH; lia.
      * rewrite app_nth2 by assumption.
        rewrite length_app in Hlen.
        rewrite Forall_forall in H2.
        rewrite (H2 (nth (p - List.length p1) p2 x))
          by (apply nth_In; lia).
        apply IH; try lia. rewrite length_app. lia.
    + apply Nat.ltb_ge in E. lia.
Qed.

Lemma firstn_exact (l1 l2 : list X) : firstn (List.length l1) (l1 ++ l2) = l1.
Proof. induction l1 as [|x l1 IH]; simpl; [now destruct l2 | now rewrite IH]. Qed.

Lemma skipn_exact (l1 l2 : list X) : skipn (List.length l1) (l1 ++ l2) = l2.
Proof. induction l1 as [|x l1 IH]; simpl; [reflexivity | exact IH]. Qed.

Lemma binary_insert_ins (p : list X) (x : X) :
  Sorted (not_less key) (rev p) ->
  consistent (key x :: map key p) ->
  binary_insert key p x = insert_asc key p x.
Proof.
  intros Hs Hc.
  destruct (split_at (rev p) x Hs) as (q2 & q1 & Hq & H2 & H1).
  { apply (consistent_incl (key x :: map key p)); [|assumption].
    intros k [<-|Hk]; [now left|]. right.
    apply in_map_iff in Hk as (y & <- & Hy). apply in_map. now apply in_rev. }
  assert (Hp : p = rev q1 ++ rev q2).
  { rewrite <- (rev_involutive p), Hq. apply rev_app_distr. }
  unfold insert_asc. rewrite Hq, insert_desc_split by assumption.
  rewrite rev_app_distr. simpl. rewrite <- app_assoc. simpl.
  unfold binary_insert. rewrite Hp.
  rewrite (bisect_boundary x (rev q1) (rev q2)).
  - now rewrite firstn_exact, skipn_exact.
  - apply Forall_forall. intros y Hy. rewrite Forall_forall in H1.
    apply H1. now apply in_rev.
  - apply Forall_forall. intros y Hy. rewrite Forall_forall in H2.
    apply H2. now apply in_rev.
  - lia.
  - rewrite length_app. lia.
  - lia.
  - lia.
Qed.

Lemma fold_ins_sort (a p : list X) :
  fold_left (insert_asc key) a p
  = rev (fold_left (fun q x => insert_desc key x q) a (rev p)).
Proof.
  revert p. induction a as [|x a IH]; intros p; simpl.
  - now rewrite rev_involutive.
  - rewrite IH. unfold insert_asc. now rewrite rev_involutive.
Qed.

Lemma fold_ins_nil (a : list X) :
  fold_left (insert_asc key) a [] = rev (sort_desc key (rev a)).
Proof.
  rewrite fold_ins_sort. simpl. f_equal. unfold sort_desc.
  symmetry. apply fold_left_rev_right.
Qed.

Lemma fold_ins_sorted (a p : list X) :
  Sorted (not_less key) (rev p) ->
  Sorted (not_less key) (rev (fold_left (insert_asc key) a p)).
Proof.
  revert p. induction a as [|x a IH]; intros p Hs; simpl; [assumption|].
  apply IH. unfold insert_asc. rewrite rev_involutive.
  now apply insert_desc_sorted.
Qed.

Lemma ins_perm (p : list X) (x : X) : Permutation (insert_asc key p x) (x :: p).
Proof.
  unfold insert_asc. rewrite <- Permutation_rev, insert_desc_perm.
  constructor. symmetry. apply Permutation_rev.
Qed.

Lemma binarysort_ins (rest p : list X) :
  Sorted (not_less key) (rev p) ->
  consistent (map key (p ++ rest)) ->
  binarysort key p rest = fold_left (insert_asc key) rest p.
Proof.
  unfold binarysort. revert p.
  induction rest as [|x rest IH]; intros p Hs Hc; simpl; [reflexivity|].
  rewrite binary_insert_ins; [|assumption|].
  - apply IH.
    + unfold insert_asc. rewrite rev_involutive. now apply insert_desc_sorted.
    + apply (consistent_incl (map key (p ++ x :: rest))); [|assumption].
      intros k Hk. apply in_map_iff in Hk as (y & <- & Hy). apply in_map.
      apply in_app_or in Hy as [Hy|Hy].
      * apply (Permutation_in _ (ins_perm p x)) in Hy.
        apply in_or_app. destruct Hy as [<-|Hy]; [right; now left | now left].
      * apply in_or_app. right. now right.
  - apply (consistent_incl (map key (p ++ x :: rest))); [|assumption].
    intros k [<-|Hk].
    + apply in_map, in_or_app. right. now left.
    + apply in_map_iff in Hk as (y & <- & Hy). apply in_map, in_or_app.
      now left.
Qed.

Lemma run_length_sorted (descending : bool) (previous : X) (l : list X) :
  Sorted (fun a b => fltb (key b) (key a) = descending)
         (previous :: firstn (run_length key descending previous l) l).
Proof.
  revert previous. induction l as [|x l IH]; intros previous; simpl.
  - repeat constructor.
  - destruct (Bool.eqb (fltb (key x) (key previous)) descending) eqn:E; simpl.
    + apply Bool.eqb_prop in E. constructor; [apply IH | now constructor].
    + repeat constructor.
Qed.

Lemma count_run_sorted (l : list X) :
  Sorted (fun a b => fltb (key b) (key a) = snd (count_run key l))
         (firstn (fst (count_run key l)) l).
Proof.
  destruct l as [|x [|y rest]]; simpl.
  - constructor.
  - repeat constructor.
  - constructor; [apply run_length_sorted | now constructor].
Qed.

Lemma short_sort_consistent (l : list X) :
  consistent (map key l) -> short_sort key l = sort_desc key l.
Proof.
  intros Hc. unfold short_sort.
  pose proof (count_run_sorted (rev l)) as Hrun.
  destruct (count_run key (rev l)) as [n descending]. simpl in Hrun.
  set (r := firstn n (rev l)) in *. set (rest := skipn n (rev l)).
  assert (Hl : rev l = r ++ rest) by (symmetry; apply firstn_skipn).
  assert (Hkeys : forall y, In y (r ++ rest) -> In (key y) (map key l)).
  { intros y Hy. rewrite <- Hl in Hy. apply in_map. now apply in_rev. }
  assert (Hr : fold_left (insert_asc key) r [] = if descending then rev r else r).
  { destruct descending.
    - rewrite descending_run; [apply app_nil_r | assumption | | intros ? ? _ []].
      apply (consistent_incl (map key l)); [|assumption].
      intros k Hk. apply in_map_iff in Hk as (y & <- & Hy).
      apply Hkeys, in_or_app. now left.
    - rewrite ascending_run; [reflexivity | assumption|].
      now destruct r. }
  rewrite <- Hr. rewrite binarysort_ins.
  - rewrite <- fold_left_app, <- Hl, fold_ins_nil.
    now rewrite !rev_involutive.
  - apply fold_ins_sorted. constructor.
  - apply (consistent_incl (map key l)); [|assumption].
    intros k Hk. apply in_map_iff in Hk as (y & <- & Hy).
    apply Hkeys. apply in_app_or in Hy as [Hy|Hy]; apply in_or_app.
    + left. rewrite fold_ins_nil in Hy. apply in_rev in Hy.
      apply (Permutation_in _ (sort_desc_perm key (rev r))) in Hy.
      now apply in_rev.
    + now right.
Qed.

(** Where [<] orders the keys, [list.sort] is the stable sort. *)
Lemma list_sort_consistent {sorting : LongSort F} (l : list X) :
  consistent (map key l) -> list_sort key l = sort_desc key l.
Proof.
  intros Hc. unfold list_sort. destruct (List.length l <? 64)%nat.
  - now apply short_sort_consistent.
  - now apply merge_sort_stable.
Qed.

(** Keys none of which is less than another: the sort moves nothing. *)
Lemma tied_consistent (ks : list F) :
  (forall x y, In x ks -> In y ks -> fltb x y = false) -> consistent ks.
Proof. intros H x y z Hx Hy Hz _ _. now apply H. Qed.

End ListSortFacts.

(** ** Sampling *)

Section SampleFacts.

Context {X : Type}.

Lemma set_nth_perm (a z : X) (j : nat) (l : list X) :
  (j < List.length l)%nat -> Permutation (z :: l) (nth j l a :: set_nth j z l).
Proof.
  revert j. induction l as [|x l IH]; simpl; intros j Hj; [lia|].
  destruct j as [|j]; simpl.
  - apply perm_swap.
  - rewrite perm_swap. rewrite (IH j) by lia. apply perm_swap.
Qed.

Lemma set_nth_app_l (z : X) (j : nat) (l l' : list X) :
  (j < List.length l)%nat -> set_nth j z (l ++ l') = set_nth j z l ++ l'.
Proof.
  revert j. induction l as [|x l IH]; simpl; intros j Hj; [lia|].
  destruct j as [|j]; simpl; [reflexivity|]. now rewrite IH by lia.
Qed.

Lemma set_nth_last (z : X) (l : list X) :
  set_nth (List.length l) z (l ++ [z]) = l ++ [z].
Proof. induction l as [|x l IH]; simpl; [reflexivity | now rewrite IH]. Qed.

(** One step of the selection takes an element out of the pool. *)
Lemma sample_step_perm (a : X) (j : nat) (pool : list X) :
  pool <> [] -> (j < List.length pool)%nat ->
  Permutation pool
    (nth j pool a :: removelast (set_nth j (last pool a) pool)).
Proof.
  intros Hne Hj. destruct (exists_last Hne) as (l & z & ->).
  rewrite last_last. rewrite length_app in Hj. simpl in Hj.
  destruct (Nat.eq_dec j (List.length l)) as [->|Hneq].
  - rewrite set_nth_last, removelast_last, nth_middle.
    symmetry. apply Permutation_cons_append.
  - rewrite set_nth_app_l, removelast_last, app_nth1 by lia.
    rewrite <- Permutation_cons_append. apply set_nth_perm. lia.
Qed.

Lemma sample_pool_perm (a : X) (rest : list X) (draws : list nat) :
  let pool := a :: rest in
  let j := (hd O draws mod List.length pool)%nat in
  Permutation pool (nth j pool a :: removelast (set_nth j (last pool a) pool)).
Proof.
  intros pool j. apply sample_step_perm; [discriminate|].
  apply Nat.mod_upper_bound. discriminate.
Qed.

Lemma sample_incl (pool : list X) (k : nat) (draws : list nat) :
  incl (sample pool k draws) pool.
Proof.
  revert pool draws. induction k as [|k IH]; intros pool draws; simpl.
  - intros x [].
  - destruct pool as [|a rest]; [intros x []|].
    pose proof (sample_pool_perm a rest draws) as Hperm. simpl in Hperm.
    intros x [<-|Hin].
    + eapply Permutation_in; [symmetry; exact Hperm | now left].
    + eapply Permutation_in; [symmetry; exact Hperm | right].
      eapply IH; eassumption.
Qed.

Lemma sample_NoDup (pool : list X) (k : nat) (draws : list nat) :
  NoDup pool -> NoDup (sample pool k draws).
Proof.
  revert pool draws. induction k as [|k IH]; intros pool draws Hnd; simpl.
  - constructor.
  - destruct pool as [|a rest]; [constructor|].
    pose proof (sample_pool_perm a rest draws) as Hperm. simpl in Hperm.
    eapply Permutation_NoDup in Hnd; [|exact Hperm].
    apply NoDup_cons_iff in Hnd as [Hnotin Hnd].
    constructor; [|now apply IH].
    intros Hin. apply Hnotin. eapply sample_incl; eassumption.
Qed.

Lemma sample_length (pool : list X) (k : nat) (draws : list nat) :
  (k <= List.length pool)%nat -> List.length (sample pool k draws) = k.
Proof.
  revert pool draws. induction k as [|k IH]; intros pool draws Hk; simpl.
  - reflexivity.
  - destruct pool as [|a rest]; [simpl in Hk; lia|].
    pose proof (sample_pool_perm a rest draws) as Hperm. simpl in Hperm.
    apply Permutation_length in Hperm. simpl in Hperm, Hk.
    simpl. f_equal. apply IH. lia.
Qed.

End SampleFacts.

(** ** The order of the two arithmetics *)

Lemma SFcompare_Lt_antisym (x y : spec_float) :
  SFcompare x y = Some Lt -> SFcompare y x = Some Gt.
Proof.
  destruct x as [sx|sx| |sx mx ex], y as [sy|sy| |sy my ey]; simpl;
    try discriminate;
    try (destruct sx; discriminate);
    try (destruct sy; discriminate);
    try (destruct sx; try discriminate; reflexivity);
    try (destruct sy; try discriminate; reflexivity).
  - destruct sx, sy; try discriminate; reflexivity.
  - change (Pos.compare_cont Eq mx my) with (Pos.compare mx my).
    change (Pos.compare_cont Eq my mx) with (Pos.compare my mx).
    destruct sx, sy; try discriminate; try reflexivity.
    + rewrite (Z.compare_antisym ey ex).
      destruct (ey ?= ex)%Z; simpl; try discriminate; try reflexivity.
      rewrite (Pos.compare_antisym my mx).
      destruct (my ?= mx)%positive; simpl; try discriminate; reflexivity.
    + rewrite (Z.compare_antisym ey ex).
      destruct (ey ?= ex)%Z; simpl; try discriminate; try reflexivity.
      rewrite (Pos.compare_antisym my mx).
      destruct (my ?= mx)%positive; simpl; try discriminate; reflexivity.
Qed.

Lemma binary64_ltb_asym (x y : float) :
  PrimFloat.ltb x y = true -> PrimFloat.ltb y x = false.
Proof.
  rewrite !ltb_spec. unfold SFltb.
  destruct (SFcompare (Prim2SF x) (Prim2SF y)) as [[| |]|] eqn:E;
    try discriminate.
  intros _. now rewrite (SFcompare_Lt_antisym _ _ E).
Qed.

#[export] Instance binary64_order : ArithOrder float.
Proof. constructor. exact binary64_ltb_asym. Qed.

Lemma exact_ltb_true (x y : R) : Exact.ltb x y = true <-> (x < y)%R.
Proof. unfold Exact.ltb. destruct (Rlt_dec x y); split; auto; discriminate. Qed.

Lemma exact_ltb_false (x y : R) : Exact.ltb x y = false <-> (y <= x)%R.
Proof.
  unfold Exact.ltb. destruct (Rlt_dec x y); split; auto; try discriminate; lra.
Qed.

#[export] Instance exact_order : ArithOrder R.
Proof.
  constructor. intros x y H. simpl in *.
  apply exact_ltb_true in H. apply exact_ltb_false. lra.
Qed.

(** * The collaborative recommender *)

Section CollaborativeFacts.

Context {F : Type} {arith : Arith F}.
Context {sets : SetIteration} {sorting : LongSort F}.

Lemma similarities_to_entries (target_user : User) (user_id : Z)
  (users : list User) (similarities : list (User * F)) :
  similarities_to target_user user_id users = Ok similarities ->
  map fst similarities = filter (other_than user_id) users
  /\ Forall (fun entry => calculate_user_similarity target_user (fst entry)
                          = Ok (snd entry)) similarities.
Proof.
  unfold similarities_to.
  generalize (filter (other_than user_id) users) as others.
  intros others H. apply mapM_ok_Forall2 in H.
  induction H as [|user entry others similarities Hentry _ IH]; simpl.
  - split; constructor.
  - apply bind_ok_inv in Hentry as (s & Hs & [= <-]).
    destruct IH as [-> IH]. split; [reflexivity|]. now constructor.
Qed.

Lemma similar_users_others (target_user : User) (user_id : Z)
  (users : list User) (similarities : list (User * F)) (entry : User * F) :
  similarities_to target_user user_id users = Ok similarities ->
  In entry (firstn 3 (list_sort snd similarities)) ->
  id (fst entry) <> user_id.
Proof.
  intros H Hin. apply similarities_to_entries in H as [Hfst _].
  apply in_firstn in Hin.
  apply (Permutation_in _ (list_sort_perm snd similarities)) in Hin.
  apply (in_map fst) in Hin. rewrite Hfst in Hin.
  apply filter_In in Hin as [_ Hin]. unfold other_than in Hin.
  now apply negb_true_iff, Z.eqb_neq in Hin.
Qed.

Lemma find_absent {X : Type} (f : X -> bool) (l : list X) :
  (forall x, In x l -> f x = false) -> find f l = None.
Proof.
  intros H. destruct (find f l) as [x|] eqn:E; [|reflexivity].
  apply find_some in E as [Hin Hx]. rewrite (H x Hin) in Hx. discriminate.
Qed.

(** C4: the collaborative recommender returns at most 3 recommendations,
    none of them for the target user, and returns the empty list, raising
    nothing, when no user of the population has the target id. *)
Theorem collaborative_at_most_three_without_target
  (db : DataStore) (user_id : Z) :
  (forall recs,
      generate_collaborative_recommendations db user_id = Ok recs ->
      (List.length recs <= 3)%nat
      /\ Forall (fun r => ref_id (rec_user r) <> user_id) recs)
  /\ ((forall u, In u (all_users db) -> id u <> user_id) ->
      generate_collaborative_recommendations db user_id = Ok []).
Proof.
  unfold generate_collaborative_recommendations, load_user_data. split.
  - intros recs H.
    destruct (find _ (all_users db)) as [target_user|].
    + apply bind_ok_inv in H as (similarities & Hsim & H).
      assert (Hrecs : recs = map user_connection
                               (firstn 3 (list_sort snd similarities)))
        by congruence.
      subst recs. clear H.
      rewrite length_map. split; [apply firstn_le_length|].
      apply Forall_forall. intros r Hr.
      apply in_map_iff in Hr as ([u s] & <- & Hin). simpl.
      apply (similar_users_others _ _ _ _ _ Hsim Hin).
    + injection H as <-. split; [simpl; lia | constructor].
  - intros H. rewrite find_absent; [reflexivity|].
    intros u Hu. now apply Z.eqb_neq, H.
Qed.





End CollaborativeFacts.

(** * The content recommender *)

Section ContentFacts.

Context {F : Type} {arith : Arith F}.
Context {sets : SetIteration} {sorting : LongSort F}.

Lemma content_items_NoDup : NoDup (@content_items F _).
Proof.
  apply (NoDup_map_inv item_id). simpl.
  repeat (constructor; [simpl; intuition discriminate|]). constructor.
Qed.

Lemma rank_content_length (catalog : list (@ContentItem F)) (user_prefs : dict) :
  List.length (rank_content catalog user_prefs)
  = Nat.min 5 (List.length catalog).
Proof.
  unfold rank_content. now rewrite length_firstn, list_sort_length, length_map.
Qed.

Lemma default_recommendations_sample (catalog : list (@ContentItem F))
  (draws : list nat) :
  NoDup catalog ->
  let picked := default_recommendations catalog draws in
  List.length picked = Nat.min 3 (List.length catalog)
  /\ NoDup picked
  /\ incl picked catalog.
Proof.
  intros Hnd picked. unfold picked, default_recommendations.
  split; [apply sample_length, Nat.le_min_r|].
  split; [now apply sample_NoDup | apply sample_incl].
Qed.

(** The three ways into line 156. *)
Lemma content_default_branch (db : DataStore) (draws : list nat)
  (user_id : option Z) :
  truthy_id user_id = false
  \/ load_user_data db user_id = []
  \/ (exists user rest, load_user_data db user_id = user :: rest
                        /\ truthy (preferences user) = false) ->
  generate_content_recommendations db draws user_id
  = Ok (map Plain (default_recommendations content_items draws)).
Proof.
  unfold generate_content_recommendations.
  intros [H | [H | (user & rest & H & Hp)]].
  - now rewrite H.
  - rewrite H. now destruct (truthy_id user_id).
  - rewrite H, Hp. now destruct (truthy_id user_id).
Qed.


(** C9: in default mode (no user id, or a user whose preference string is
    absent or empty, which parses to the empty map) the content
    recommender returns, for every outcome of the randomness source,
    min(3, catalog size) = 3 entries, each an item of the catalog and no
    two the same. *)
Theorem content_default_sample (db : DataStore) (draws : list nat)
  (user_id : option Z) :
  truthy_id user_id = false
  \/ (exists user rest, load_user_data db user_id = user :: rest
                        /\ (preferences user = None
                            \/ preferences user = Some EmptyString)) ->
  let picked := default_recommendations content_items draws in
  generate_content_recommendations db draws user_id = Ok (map Plain picked)
  /\ List.length picked = Nat.min 3 (List.length (@content_items F _))
  /\ List.length picked = 3%nat
  /\ NoDup picked
  /\ (forall i, In i picked -> In i content_items)
  /\ parse_preferences EmptyString = Ok (@nil (string * F))
  /\ forall catalog : list (@ContentItem F),
      NoDup catalog ->
      List.length (default_recommendations catalog draws)
      = Nat.min 3 (List.length catalog)
      /\ NoDup (default_recommendations catalog draws)
      /\ incl (default_recommendations catalog draws) catalog.
Proof.
  intros H picked.
  destruct (default_recommendations_sample content_items draws
              content_items_NoDup) as (Hlen & Hnd & Hincl).
  split.
  - apply content_default_branch.
    destruct H as [H | (user & rest & H & Hp)]; [now left|].
    right. right. exists user, rest. split; [assumption|].
    now apply truthy_false.
  - split; [assumption|]. split; [assumption|]. split; [assumption|].
    split; [assumption|]. split; [reflexivity|].
    intros catalog Hcat. now apply default_recommendations_sample.
Qed.

(** C10: a user id for which the data store has no record falls back to
    the default mode: the same result as without a user id, a sample of 3
    catalog items, neither empty nor scored. *)
Theorem content_unknown_user_default (db : DataStore) (draws : list nat)
  (n : Z) :
  query_user db n = None ->
  let picked := default_recommendations content_items draws in
  generate_content_recommendations db draws (Some n)
  = generate_content_recommendations db draws None
  /\ generate_content_recommendations db draws (Some n)
     = Ok (map (@Plain F) picked)
  /\ List.length picked = 3%nat
  /\ NoDup picked
  /\ incl picked content_items
  /\ (n <> 0%Z -> load_user_data db (Some n) = []).
Proof.
  intros Hq picked.
  assert (Hload : truthy_id (Some n) = true -> load_user_data db (Some n) = [])
    by (intros Hid; unfold load_user_data; now rewrite Hid, Hq).
  assert (Hdefault : generate_content_recommendations db draws (Some n)
                     = Ok (map (@Plain F) picked)).
  { apply content_default_branch.
    destruct (truthy_id (Some n)) eqn:Hid; [right; left; now apply Hload|].
    now left. }
  rewrite Hdefault.
  rewrite (content_default_branch db draws None) by (left; reflexivity).
  split; [reflexivity|]. split; [reflexivity|].
  destruct (default_recommendations_sample content_items draws
              content_items_NoDup) as (Hlen & Hnd & Hincl).
  split; [exact Hlen|]. split; [exact Hnd|]. split; [exact Hincl|].
  intros Hn. apply Hload. apply truthy_id_true. eauto.
Qed.

End ContentFacts.




(** * The parser and the similarity engine: their contracts *)

Section EngineContracts.

Context {F : Type} {arith : Arith F}.
Context {sets : SetIteration} {sorting : LongSort F}.

Implicit Types (A B prefs : @dict F).


Lemma shares_category_nonempty A B :
  shares_category A B = true -> is_empty A = false /\ is_empty B = false.
Proof.
  destruct A as [|a A]; [discriminate|].
  destruct B as [|b B]; [|auto].
  unfold shares_category. simpl keys at 2.
  intros H. apply existsb_exists in H as (cat & _ & H). discriminate.
Qed.

(** C5: the parser splits the string on commas and each piece on its first
    colon only, skips the pieces without a colon, raises [ValueError]
    exactly when the score of some piece is not a well-formed float, which
    both callers let through, and yields the empty map for the empty
    string; an absent or empty string is never parsed and raises nothing. *)
Theorem preference_parser_contract (s : string) :
  join "," (split "," s) = s
  /\ Forall (fun pref => contains "," pref = false) (split "," s)
  /\ parse_preferences s = foldM parse_pref (split "," s) []
  /\ (forall prefs cat score,
         contains ":" cat = false ->
         parse_pref prefs (cat ++ String ":" score)
         = match float_of_string score with
           | Some x => Ok (dict_set cat x prefs)
           | None => Raise ValueError
           end)
  /\ (forall prefs pref,
         contains ":" pref = false -> parse_pref prefs pref = Ok prefs)
  /\ (forall e,
         parse_preferences s = Raise e <->
         e = ValueError
         /\ exists pref cat score,
             In pref (split "," s)
             /\ pref = (cat ++ String ":" score)%string
             /\ contains ":" cat = false
             /\ float_of_string score = None)
  /\ (forall user other e,
         preferences user = Some s ->
         parse_preferences s = Raise e ->
         truthy (preferences other) = true ->
         calculate_user_similarity user other = Raise e
         /\ forall db draws n,
             n <> 0%Z -> query_user db n = Some user ->
             generate_content_recommendations db draws (Some n) = Raise e)
  /\ parse_preferences EmptyString = Ok (@nil (string * F))
  /\ (forall user other,
         preferences user = None \/ preferences user = Some EmptyString ->
         calculate_user_similarity user other = Ok (lit 1 1)
         /\ calculate_user_similarity other user = Ok (lit 1 1)
         /\ forall db draws n,
             query_user db n = Some user ->
             generate_content_recommendations db draws (Some n)
             = Ok (map Plain (default_recommendations content_items draws))).
Proof.
  split; [apply join_split|]. split; [apply split_pieces|].
  split; [reflexivity|]. split; [intros; now apply parse_pref_pair|].
  split; [intros; now apply parse_pref_skip|].
  split; [intros e; apply parse_pieces_raise|].
  split; [|split; [reflexivity|]].
  - intros user other e Hp Hraise Hother.
    assert (Htruthy : truthy (preferences user) = true).
    { rewrite Hp. simpl. destruct (String.eqb s EmptyString) eqn:E; [|reflexivity].
      apply String.eqb_eq in E. subst s. discriminate Hraise. }
    split.
    + unfold calculate_user_similarity.
      rewrite Htruthy, Hother, Hp. simpl. now rewrite Hraise.
    + intros db draws n Hn Hq.
      unfold generate_content_recommendations, load_user_data.
      assert (Hid : truthy_id (Some n) = true) by (apply truthy_id_true; eauto).
      rewrite Hid, Hq, Htruthy, Hp. simpl. now rewrite Hraise.
  - intros user other Hp. apply truthy_false in Hp.
    unfold calculate_user_similarity. rewrite Hp, orb_true_r. simpl.
    split; [reflexivity|]. split; [reflexivity|].
    intros db draws n Hq. apply content_default_branch.
    destruct (truthy_id (Some n)) eqn:Hid; [|now left].
    right. right. exists user, []. split; [|assumption].
    unfold load_user_data. now rewrite Hid, Hq.
Qed.



End EngineContracts.

(** ** A map against itself *)

Section SelfSimilarityFacts.

Context {F : Type} {arith : Arith F}.
Context {sets : SetIteration} {sorting : LongSort F}.

Implicit Types (A : @dict F).

Lemma entries_of_keys_part A (A0 : dict) :
  (forall k v, In (k, v) A0 -> dict_get A k = Some v) ->
  entries_of A (keys A0) = A0.
Proof.
  unfold entries_of.
  induction A0 as [|[k a] A0 IH]; simpl; intros H; [reflexivity|].
  rewrite (H k a) by auto. simpl. now rewrite IH by auto.
Qed.

Lemma entries_of_keys A : dict_wf A -> entries_of A (keys A) = A.
Proof.
  intros H. apply entries_of_keys_part. intros. now apply dict_get_wf.
Qed.

Lemma filter_all {X : Type} (p : X -> bool) (l : list X) :
  (forall x, In x l -> p x = true) -> filter p l = l.
Proof.
  induction l as [|x l IH]; simpl; intros H; [reflexivity|].
  rewrite (H x) by auto. now rewrite IH by auto.
Qed.

(** The set of the categories of [A] lists every key of [A] once. *)
Lemma common_categories_self A :
  dict_wf A -> Permutation (common_categories A A) (keys A).
Proof.
  intros HA. rewrite (common_categories_perm A A HA).
  rewrite filter_all; [reflexivity|].
  intros k Hk. apply existsb_exists. exists k. split; [assumption|].
  apply String.eqb_refl.
Qed.

Lemma entries_of_self A :
  dict_wf A -> Permutation (entries_of A (common_categories A A)) A.
Proof.
  intros HA. apply Permutation_trans with (entries_of A (keys A)).
  - unfold entries_of. apply Permutation_flat_map.
    now apply common_categories_self.
  - now rewrite entries_of_keys.
Qed.

Lemma shared_products_self A :
  shared_products A A
  = map (fun entry => fmul (snd entry) (snd entry))
        (entries_of A (common_categories A A)).
Proof.
  unfold shared_products, entries_of.
  induction (common_categories A A) as [|k ks IH]; simpl; [reflexivity|].
  rewrite IH. now destruct (dict_get A k).
Qed.

(** The similarity of [A] with itself is [d / (norm * norm)]: [d] adds the
    products [x * x] in the order in which the set of the categories is
    iterated, [norm] is [s ** 0.5] where [s] adds the squares [x ** 2] in
    the order of the map. *)
Lemma cosine_similarity_self A (norm : F) :
  dict_wf A -> A <> [] ->
  magnitude A = Ok norm -> feqb norm (lit 0 0) = false ->
  exists iterated squares,
    Permutation iterated A
    /\ mapM fpow2 (values A) = Ok squares
    /\ norm = fpow_half (sum squares)
    /\ cosine_similarity A A
       = fdiv (sum (map (fun entry => fmul (snd entry) (snd entry)) iterated))
              (fmul norm norm).
Proof.
  intros HA Hne Hnorm Hnz.
  rewrite magnitude_l2_norm in Hnorm by assumption.
  pose proof Hnorm as Hsq. unfold l2_norm in Hsq.
  apply bind_ok_inv in Hsq as (squares & Hsq & [= Hs]).
  exists (entries_of A (common_categories A A)), squares.
  split; [now apply entries_of_self|]. split; [assumption|].
  split; [now symmetry|].
  rewrite cosine_similarity_spec by assumption. unfold similarity_by_norms.
  rewrite (shares_category_self A Hne), Hnorm.
  destruct A as [|entry A']; [congruence|].
  cbn [is_empty orb negb bind]. rewrite Hnz. cbn [orb].
  unfold dot_shared. now rewrite shared_products_self.
Qed.

End SelfSimilarityFacts.

Lemma binary64_pow2_square (x y : float) :
  Binary64.pow2 x = Ok y -> y = PrimFloat.mul x x.
Proof.
  unfold Binary64.pow2.
  destruct (is_infinity (PrimFloat.mul x x) && is_finite x);
    [discriminate | now intros [= <-]].
Qed.

(** ** Symmetry, when the products commute

    Two calls with the arguments exchanged multiply the same scores and
    the same norms; they can differ only in the order in which they add
    the shared products. *)

Section SymmetryFacts.

Context {F : Type} {arith : Arith F}.
Context {sets : SetIteration} {sorting : LongSort F}.

Hypothesis fmul_comm : forall x y : F, fmul x y = fmul y x.
Hypothesis fpow2_raises :
  forall (x : F) (e : exn), fpow2 x = Raise e -> e = OverflowError.

Implicit Types (A B : @dict F).

Lemma mapM_raise_inv {X Y : Type} (f : X -> result Y) (l : list X) (e : exn) :
  mapM f l = Raise e -> exists x, In x l /\ f x = Raise e.
Proof.
  induction l as [|x l IH]; simpl; [discriminate|].
  intros H. apply bind_raise_inv in H as [H | (y & _ & H)].
  - exists x. auto.
  - apply bind_raise_inv in H as [H | (ys & _ & H)]; [|discriminate].
    destruct (IH H) as (x' & Hin & Hx'). exists x'. auto.
Qed.

Lemma l2_norm_raises A (e : exn) : l2_norm A = Raise e -> e = OverflowError.
Proof.
  unfold l2_norm. intros H.
  apply bind_raise_inv in H as [H | (squares & _ & H)]; [|discriminate].
  apply mapM_raise_inv in H as (x & _ & H). now apply fpow2_raises in H.
Qed.

Lemma mapM_ext_in {X Y : Type} (f g : X -> result Y) (l : list X) :
  (forall x, In x l -> f x = g x) -> mapM f l = mapM g l.
Proof.
  induction l as [|x l IH]; simpl; intros H; [reflexivity|].
  rewrite (H x) by auto. now rewrite IH by auto.
Qed.

Lemma shared_products_sym A B :
  common_categories A B = common_categories B A ->
  shared_products A B = shared_products B A.
Proof.
  intros Hsame. unfold shared_products. rewrite <- Hsame.
  apply flat_map_ext. intros cat.
  destruct (dict_get A cat), (dict_get B cat); try reflexivity.
  now rewrite fmul_comm.
Qed.

Lemma cosine_similarity_sym_same_order A B :
  dict_wf A -> dict_wf B ->
  common_categories A B = common_categories B A ->
  cosine_similarity A B = cosine_similarity B A.
Proof.
  intros HA HB Hsame. rewrite !cosine_similarity_spec by assumption.
  unfold similarity_by_norms, dot_shared.
  rewrite (shared_products_sym A B Hsame).
  rewrite (orb_comm (is_empty B)), (shares_category_sym B A).
  destruct (is_empty A || is_empty B); [reflexivity|].
  destruct (negb (shares_category A B)); [reflexivity|].
  destruct (l2_norm A) as [norm1|e1] eqn:E1, (l2_norm B) as [norm2|e2] eqn:E2;
    simpl; try reflexivity.
  - rewrite (orb_comm (feqb norm2 _)), (fmul_comm norm2). reflexivity.
  - apply l2_norm_raises in E1, E2. congruence.
Qed.

End SymmetryFacts.

Lemma SFmul_comm (x y : spec_float) :
  SFmul prec emax x y = SFmul prec emax y x.
Proof.
  destruct x as [sx|sx| |sx mx ex], y as [sy|sy| |sy my ey]; simpl;
    try reflexivity; rewrite (xorb_comm sx sy); try reflexivity.
  now rewrite (Pos.mul_comm mx my), (Z.add_comm ex ey).
Qed.

Lemma binary64_mul_comm (x y : float) : PrimFloat.mul x y = PrimFloat.mul y x.
Proof. apply Prim2SF_inj. rewrite !mul_spec. apply SFmul_comm. Qed.

Lemma binary64_pow2_raises (x : float) (e : exn) :
  Binary64.pow2 x = Raise e -> e = OverflowError.
Proof.
  unfold Binary64.pow2.
  destruct (is_infinity (PrimFloat.mul x x) && is_finite x);
    [now intros [= <-] | discriminate].
Qed.

(** * Exact arithmetic: the cosine formula over the reals *)

Module ExactFacts.

Import Exact.
Local Open Scope R_scope.

Lemma lit_0 : @lit R exact 0 0 = 0.
Proof. simpl. lra. Qed.

Lemma lit_floor : @lit R exact 1 1 = 1 / 10.
Proof. simpl. lra. Qed.

Lemma fold_left_Rplus (l : list R) (a : R) : fold_left Rplus l a = a + Rsum l.
Proof.
  revert a. induction l as [|x l IH]; simpl; intros a; [lra|].
  rewrite IH. lra.
Qed.

Lemma sum_Rsum (l : list R) : @sum R exact l = Rsum l.
Proof. unfold sum. rewrite fold_left_Rplus, lit_0. lra. Qed.

Lemma Rsum_app (l l' : list R) : Rsum (l ++ l') = Rsum l + Rsum l'.
Proof. induction l as [|x l IH]; simpl; [lra | rewrite IH; lra]. Qed.

Lemma Rsum_nonneg (l : list R) : Forall (fun x => 0 <= x) l -> 0 <= Rsum l.
Proof. induction 1; simpl; lra. Qed.

Lemma sumsq_nonneg (A : @dict R) : 0 <= sumsq A.
Proof.
  unfold sumsq. induction (values A) as [|x l IH]; simpl; [lra|]. nra.
Qed.

Lemma l2_norm_exact (A : @dict R) : @l2_norm R exact A = Ok (sqrt (sumsq A)).
Proof.
  unfold l2_norm.
  rewrite (mapM_total _ (fun x => x * x)) by reflexivity.
  simpl. now rewrite sum_Rsum.
Qed.

Lemma Rsum_perm (l l' : list R) : Permutation l l' -> Rsum l = Rsum l'.
Proof. induction 1; simpl; lra. Qed.

Lemma products_in_order (A B A0 : @dict R) :
  (forall k v, In (k, v) A0 -> dict_get A k = Some v) ->
  Rsum (flat_map (fun cat => match dict_get A cat, dict_get B cat with
                             | Some a, Some b => [a * b]
                             | _, _ => []
                             end)
          (filter (fun k => existsb (String.eqb k) (keys B)) (keys A0)))
  = Rsum (map (fun entry => snd entry * get0 B (fst entry)) A0).
Proof.
  induction A0 as [|[k a] A0 IH]; simpl; intros H; [reflexivity|].
  rewrite <- IH by auto. rewrite <- (has_key_existsb B k).
  unfold get0. destruct (dict_get B k) as [b|] eqn:E; simpl.
  - rewrite (H k a) by auto. rewrite E. simpl. lra.
  - lra.
Qed.

(** Over the reals the order of the sum does not matter. *)
Lemma dot_shared_exact {sets : SetIteration} (A B : @dict R) :
  dict_wf A -> @dot_shared R exact sets A B = dotR A B.
Proof.
  intros HA. unfold dot_shared, dotR, shared_products. rewrite sum_Rsum.
  rewrite <- (products_in_order A B A)
    by (intros; now apply dict_get_wf).
  apply Rsum_perm. apply Permutation_flat_map.
  now apply common_categories_perm.
Qed.

Lemma eqb_zero (x : R) :
  @feqb R exact x (lit 0 0) = if Req_dec_T x 0 then true else false.
Proof.
  rewrite lit_0. simpl. unfold Exact.eqb. reflexivity.
Qed.

Lemma sqrt_sumsq_pos (A : @dict R) : sqrt (sumsq A) <> 0 -> 0 < sqrt (sumsq A).
Proof. intros H. pose proof (sqrt_pos (sumsq A)). lra. Qed.

Lemma cosine_similarity_exact {sets : SetIteration} (A B : @dict R) :
  dict_wf A -> dict_wf B ->
  @cosine_similarity R exact sets A B = Ok (similarity A B).
Proof.
  intros HA HB. rewrite cosine_similarity_spec by assumption.
  unfold similarity_by_norms, similarity.
  rewrite !l2_norm_exact, dot_shared_exact, lit_floor by assumption.
  cbn [bind].
  rewrite !eqb_zero.
  destruct (shares_category A B) eqn:Hs; simpl.
  - destruct (shares_category_nonempty A B Hs) as [-> ->]. simpl.
    destruct (Req_dec_T (sqrt (sumsq A)) 0) as [|HnA]; [reflexivity|].
    destruct (Req_dec_T (sqrt (sumsq B)) 0) as [|HnB]; [reflexivity|].
    simpl. unfold Exact.div.
    destruct (Req_dec_T (sqrt (sumsq A) * sqrt (sumsq B)) 0) as [H0|];
      [|reflexivity].
    apply Rmult_integral in H0. tauto.
  - now destruct (is_empty A || is_empty B).
Qed.

(** *** The dot product is symmetric *)

Lemma get0_cons (k0 k : string) (a0 : R) (A : @dict R) :
  get0 ((k0, a0) :: A) k = if String.eqb k0 k then a0 else get0 A k.
Proof. unfold get0. simpl. now destruct (String.eqb k0 k). Qed.

Lemma get0_absent (A : @dict R) (k : string) : ~ In k (keys A) -> get0 A k = 0.
Proof. intros H. apply dict_get_none in H. unfold get0. now rewrite H. Qed.

Lemma dotR_cons_r (B A : @dict R) (k0 : string) (a0 : R) :
  dict_wf B -> ~ In k0 (keys A) ->
  dotR B ((k0, a0) :: A) = a0 * get0 B k0 + dotR B A.
Proof.
  unfold dotR, dict_wf. intros Hwf Hk0.
  induction B as [|[k b] B IH]; simpl.
  - unfold get0. simpl. lra.
  - apply NoDup_cons_iff in Hwf as [Hk Hwf].
    rewrite IH by assumption. rewrite !get0_cons.
    destruct (String.eqb k0 k) eqn:E.
    + apply String.eqb_eq in E. subst k0.
      rewrite String.eqb_refl, (get0_absent B k Hk), (get0_absent A k Hk0).
      lra.
    + rewrite String.eqb_sym, E. lra.
Qed.

Lemma dotR_nil_r (B : @dict R) : dotR B [] = 0.
Proof.
  unfold dotR. induction B as [|[k b] B IH]; simpl; [reflexivity|].
  rewrite IH. unfold get0. simpl. lra.
Qed.

Lemma dotR_sym (A B : @dict R) : dict_wf A -> dict_wf B -> dotR A B = dotR B A.
Proof.
  intros HA HB. induction A as [|[k0 a0] A IH].
  - now rewrite dotR_nil_r.
  - apply NoDup_cons_iff in HA as [Hk0 HA].
    rewrite dotR_cons_r by assumption. rewrite <- IH by assumption.
    unfold dotR. simpl. lra.
Qed.

Lemma similarity_sym (A B : @dict R) :
  dict_wf A -> dict_wf B -> similarity A B = similarity B A.
Proof.
  intros HA HB. unfold similarity.
  rewrite (shares_category_sym B A), (dotR_sym B A HB HA).
  destruct (negb (shares_category A B)); [reflexivity|].
  destruct (Req_dec_T (sqrt (sumsq A)) 0), (Req_dec_T (sqrt (sumsq B)) 0);
    try reflexivity.
  f_equal. lra.
Qed.

(** *** The dot product of a map with itself *)



(** *** Cauchy-Schwarz, over the shared categories *)

Lemma cauchy_schwarz_step (x y S P Q : R) :
  0 <= P -> 0 <= Q -> S * S <= P * Q ->
  (x * y + S) * (x * y + S) <= (x * x + P) * (y * y + Q).
Proof.
  intros HP HQ HS.
  assert (Hkey : 2 * (x * y) * S <= x * x * Q + y * y * P).
  { destruct (Rle_dec (2 * (x * y) * S) (x * x * Q + y * y * P)) as [|Hn];
      [assumption|]. exfalso. apply Rnot_le_lt in Hn.
    assert (Hx : 0 <= x * x) by apply Rle_0_sqr.
    assert (Hy : 0 <= y * y) by apply Rle_0_sqr.
    assert (H0 : 0 <= x * x * Q + y * y * P)
      by (apply Rplus_le_le_0_compat; apply Rmult_le_pos; assumption).
    assert (H1 : (x * x * Q + y * y * P) * (x * x * Q + y * y * P)
                 < (2 * (x * y) * S) * (2 * (x * y) * S))
      by (apply Rmult_le_0_lt_compat; assumption).
    assert (H2 : 0 <= (x * x * Q - y * y * P) * (x * x * Q - y * y * P))
      by apply Rle_0_sqr.
    assert (H3 : 0 <= (x * y) * (x * y) * (P * Q - S * S))
      by (apply Rmult_le_pos; [apply Rle_0_sqr | lra]).
    lra. }
  lra.
Qed.

Lemma cauchy_schwarz (l : list (R * R)) :
  0 <= Rsum (map (fun p => fst p * fst p) l)
  /\ 0 <= Rsum (map (fun p => snd p * snd p) l)
  /\ Rsum (map (fun p => fst p * snd p) l)
      * Rsum (map (fun p => fst p * snd p) l)
      <= Rsum (map (fun p => fst p * fst p) l)
         * Rsum (map (fun p => snd p * snd p) l).
Proof.
  induction l as [|[x y] l (HP & HQ & HS)]; simpl.
  - lra.
  - split; [nra|]. split; [nra|]. now apply cauchy_schwarz_step.
Qed.

Lemma sumsq_keys_cons (ks : list string) (k0 : string) (b0 : R) (B : @dict R) :
  NoDup ks ->
  Rsum (map (fun k => get0 ((k0, b0) :: B) k * get0 ((k0, b0) :: B) k) ks)
  <= b0 * b0 + Rsum (map (fun k => get0 B k * get0 B k) ks).
Proof.
  induction ks as [|k ks IH]; simpl; intros Hnd.
  - nra.
  - apply NoDup_cons_iff in Hnd as [Hk Hnd]. specialize (IH Hnd).
    rewrite get0_cons. destruct (String.eqb k0 k) eqn:E.
    + apply String.eqb_eq in E. subst k0.
      rewrite (map_ext_in _ (fun k' => get0 B k' * get0 B k')).
      * nra.
      * intros k' Hk'. rewrite get0_cons.
        destruct (String.eqb k k') eqn:E'; [|reflexivity].
        apply String.eqb_eq in E'. now subst k'.
    + nra.
Qed.

Lemma sumsq_keys_le (ks : list string) (B : @dict R) :
  NoDup ks -> Rsum (map (fun k => get0 B k * get0 B k) ks) <= sumsq B.
Proof.
  intros Hnd. induction B as [|[k0 b0] B IH].
  - unfold sumsq, get0. simpl.
    induction ks as [|k ks IHks]; simpl; [lra|].
    apply NoDup_cons_iff in Hnd as [_ Hnd]. specialize (IHks Hnd). lra.
  - pose proof (sumsq_keys_cons ks k0 b0 B Hnd) as H.
    unfold sumsq in *. simpl. lra.
Qed.

Lemma dotR_square_le (A B : @dict R) :
  dict_wf A -> dotR A B * dotR A B <= sumsq A * sumsq B.
Proof.
  intros HA.
  set (l := map (fun e : string * R => (snd e, get0 B (fst e))) A).
  assert (ES : Rsum (map (fun p => fst p * snd p) l) = dotR A B)
    by (unfold l, dotR; rewrite map_map; reflexivity).
  assert (EP : Rsum (map (fun p => fst p * fst p) l) = sumsq A)
    by (unfold l, sumsq, values; rewrite !map_map; reflexivity).
  assert (EQ : Rsum (map (fun p => snd p * snd p) l)
               = Rsum (map (fun k => get0 B k * get0 B k) (keys A)))
    by (unfold l, keys; rewrite !map_map; reflexivity).
  destruct (cauchy_schwarz l) as (HP & HQ & HS).
  rewrite ES, EP, EQ in *.
  pose proof (sumsq_keys_le (keys A) B HA) as Hle.
  apply Rle_trans with (1 := HS).
  apply Rmult_le_compat_l; assumption.
Qed.

Lemma dotR_le_norms (A B : @dict R) :
  dict_wf A ->
  - (sqrt (sumsq A) * sqrt (sumsq B)) <= dotR A B
  /\ dotR A B <= sqrt (sumsq A) * sqrt (sumsq B).
Proof.
  intros HA. pose proof (dotR_square_le A B HA) as H.
  pose proof (sqrt_pos (sumsq A)) as HsA.
  pose proof (sqrt_pos (sumsq B)) as HsB.
  pose proof (sqrt_sqrt _ (sumsq_nonneg A)) as HqA.
  pose proof (sqrt_sqrt _ (sumsq_nonneg B)) as HqB.
  assert (Hm : 0 <= sqrt (sumsq A) * sqrt (sumsq B)) by nra.
  assert (Hmm : (sqrt (sumsq A) * sqrt (sumsq B))
                * (sqrt (sumsq A) * sqrt (sumsq B)) = sumsq A * sumsq B) by nra.
  split; nra.
Qed.

Lemma get0_nonneg (B : @dict R) (k : string) :
  Forall (fun v => 0 <= v) (values B) -> 0 <= get0 B k.
Proof.
  intros H. unfold get0. destruct (dict_get B k) as [b|] eqn:E; [|lra].
  apply dict_get_some_in in E. rewrite Forall_forall in H. apply H.
  change b with (snd (k, b)). now apply in_map.
Qed.

Lemma dotR_nonneg (A B : @dict R) :
  Forall (fun v => 0 <= v) (values A) ->
  Forall (fun v => 0 <= v) (values B) ->
  0 <= dotR A B.
Proof.
  intros HA HB. unfold dotR. apply Rsum_nonneg.
  apply Forall_forall. intros x Hx.
  apply in_map_iff in Hx as ([k a] & <- & Hin). simpl.
  pose proof (get0_nonneg B k HB).
  rewrite Forall_forall in HA.
  assert (0 <= a) by (apply HA; change a with (snd (k, a)); now apply in_map).
  nra.
Qed.

Lemma similarity_bounds (A B : @dict R) :
  dict_wf A -> -1 <= similarity A B <= 1.
Proof.
  intros HA. unfold similarity.
  destruct (negb (shares_category A B)); [lra|].
  destruct (Req_dec_T (sqrt (sumsq A)) 0) as [|HnA]; [lra|].
  destruct (Req_dec_T (sqrt (sumsq B)) 0) as [|HnB]; [lra|].
  apply sqrt_sumsq_pos in HnA, HnB.
  destruct (dotR_le_norms A B HA) as [Hlo Hhi].
  assert (Hm : 0 < sqrt (sumsq A) * sqrt (sumsq B)) by nra.
  split.
  - apply Rmult_le_reg_r with (sqrt (sumsq A) * sqrt (sumsq B)); [assumption|].
    unfold Rdiv. rewrite Rmult_assoc, Rinv_l by lra. lra.
  - apply Rmult_le_reg_r with (sqrt (sumsq A) * sqrt (sumsq B)); [assumption|].
    unfold Rdiv. rewrite Rmult_assoc, Rinv_l by lra. lra.
Qed.

Lemma similarity_nonneg (A B : @dict R) :
  Forall (fun v => 0 <= v) (values A) ->
  Forall (fun v => 0 <= v) (values B) ->
  0 <= similarity A B.
Proof.
  intros HA HB. unfold similarity.
  destruct (negb (shares_category A B)); [lra|].
  destruct (Req_dec_T (sqrt (sumsq A)) 0) as [|HnA]; [lra|].
  destruct (Req_dec_T (sqrt (sumsq B)) 0) as [|HnB]; [lra|].
  apply sqrt_sumsq_pos in HnA, HnB.
  pose proof (dotR_nonneg A B HA HB).
  apply Rmult_le_pos; [assumption|].
  apply Rlt_le, Rinv_0_lt_compat. nra.
Qed.


End ExactFacts.

(** * Similarity: range, symmetry and self-similarity *)


Lemma ones3_wf : dict_wf ones3.
Proof.
  repeat (constructor; [simpl; intuition discriminate|]). constructor.
Qed.

(** C1, as stated, fails in binary64: the map [a:0] has norm zero, yet
    against [a:1e200] the similarity is not 0.1.  The code computes the
    second norm (line 76) before it tests the first (line 78), and the
    square of 1e200 raises [OverflowError]. *)
Lemma similarity_overflow_before_zero_norm :
  exists big : float,
    @parse_preferences float binary64 "a:0" = Ok [("a", PrimFloat.zero)]
    /\ @parse_preferences float binary64 "a:1e200" = Ok [("a", big)]
    /\ @l2_norm float binary64 [("a", PrimFloat.zero)] = Ok PrimFloat.zero
    /\ @feqb float binary64 PrimFloat.zero (lit 0 0) = true
    /\ @spec_similarity float binary64 first_operand_order
         [("a", PrimFloat.zero)] [("a", big)]
       = Ok (lit 1 1)
    /\ @cosine_similarity float binary64 first_operand_order
         [("a", PrimFloat.zero)] [("a", big)]
       = Raise OverflowError
    /\ @calculate_user_similarity float binary64 first_operand_order
         (mk_user 1 (Some "a:0")) (mk_user 2 (Some "a:1e200"))
       = Raise OverflowError.
Proof.
  eexists. split; [vm_compute; reflexivity|].
  split; [vm_compute; reflexivity|].
  repeat (split; [vm_compute; reflexivity|]).
  vm_compute. reflexivity.
Qed.

(** C3, as stated, fails when a similarity is NaN: user 3 has the score
    [nan], [<] is false on it, and [list.sort] leaves the similarities 0.1,
    NaN, 1.0 of the users 2, 3, 4 as they are: user 2, with 0.1, comes
    before user 4, with 1.0. *)
Lemma collaborative_nan_out_of_order :
  let db := {| all_users := [ mk_user 1 (Some "a:1"); mk_user 2 (Some "b:1");
                              mk_user 3 (Some "a:nan"); mk_user 4 (Some "a:1") ];
               query_user := fun _ => None |} in
  exists r2 r3 r4 : @Recommendation float,
    @generate_collaborative_recommendations float binary64
      first_operand_order stable_merge db 1
    = Ok [r2; r3; r4]
    /\ map (fun r => ref_id (rec_user r)) [r2; r3; r4] = [2; 3; 4]%Z
    /\ similarity_score r2 = 0x1.999999999999ap-4%float
    /\ similarity_score r4 = PrimFloat.one
    /\ PrimFloat.ltb (similarity_score r2) (similarity_score r4) = true.
Proof.
  do 3 eexists. split; [vm_compute; reflexivity|].
  repeat (split; [vm_compute; reflexivity|]).
  vm_compute. reflexivity.
Qed.

(** Scores that are all 1, whatever the order in which they are listed. *)
Lemma unit_scores (iterated A : @dict float) :
  Permutation iterated A ->
  Forall (fun v => v = PrimFloat.one) (values A) ->
  map (fun entry => PrimFloat.mul (snd entry) (snd entry)) iterated
  = repeat PrimFloat.one (List.length A).
Proof.
  intros Hperm Hone. rewrite <- (Permutation_length Hperm).
  assert (Hall : Forall (fun entry => snd entry = PrimFloat.one) iterated).
  { apply Forall_forall. intros entry Hin.
    apply (Permutation_in _ Hperm) in Hin.
    rewrite Forall_forall in Hone. apply Hone. now apply in_map. }
  clear Hperm Hone.
  induction Hall as [|entry l Hentry _ IH]; simpl; [reflexivity|].
  rewrite Hentry, IH. reflexivity.
Qed.

(** C6, as stated, fails in binary64: three unit scores against themselves
    give 3 / (sqrt 3 * sqrt 3), and the rounded product of the norms is
    below 3, so the similarity is 1.0000000000000002, above 1, in
    whatever order the set of the categories is iterated. *)
Lemma similarity_above_one_binary64 :
  @parse_preferences float binary64 "a:1,b:1,c:1" = Ok ones3
  /\ dict_wf ones3
  /\ Forall (fun v => PrimFloat.leb PrimFloat.zero v = true) (values ones3)
  /\ @cosine_similarity float binary64 first_operand_order ones3 ones3
     = Ok 0x1.0000000000001p+0%float
  /\ PrimFloat.ltb PrimFloat.one 0x1.0000000000001p+0%float = true
  /\ @calculate_user_similarity float binary64 first_operand_order
       (mk_user 1 (Some "a:1,b:1,c:1")) (mk_user 2 (Some "a:1,b:1,c:1"))
     = Ok 0x1.0000000000001p+0%float
  /\ forall sets : SetIteration,
      @cosine_similarity float binary64 sets ones3 ones3
      = Ok 0x1.0000000000001p+0%float.
Proof.
  split; [vm_compute; reflexivity|].
  split; [exact ones3_wf|].
  split; [repeat constructor|].
  split; [vm_compute; reflexivity|].
  split; [vm_compute; reflexivity|].
  split; [vm_compute; reflexivity|].
  intros sets.
  destruct (@cosine_similarity_self float binary64 sets ones3
              0x1.bb67ae8584caap+0%float ones3_wf)
    as (iterated & squares & Hperm & _ & _ & ->);
    [discriminate | vm_compute; reflexivity | vm_compute; reflexivity|].
  change (@fmul float binary64) with PrimFloat.mul.
  rewrite (unit_scores iterated ones3 Hperm) by (repeat constructor).
  vm_compute. reflexivity.
Qed.

(** C6, amended: in exact arithmetic the similarity of two maps with
    non-negative scores is returned, without an error, and lies in
    [0, 1]. *)
Theorem similarity_unit_interval_exact {sets : SetIteration}
  (A B : @dict R) :
  dict_wf A -> dict_wf B ->
  Forall (fun v => 0 <= v)%R (values A) ->
  Forall (fun v => 0 <= v)%R (values B) ->
  exists r, @cosine_similarity R exact sets A B = Ok r /\ (0 <= r <= 1)%R.
Proof.
  intros HA HB HposA HposB. exists (Exact.similarity A B).
  split; [now apply ExactFacts.cosine_similarity_exact|]. split.
  - now apply ExactFacts.similarity_nonneg.
  - now apply ExactFacts.similarity_bounds.
Qed.

Lemma seed_58_perm (ks1 ks2 : list string) :
  NoDup ks1 ->
  Permutation (seed_58_intersection ks1 ks2)
    (filter (fun k => existsb (String.eqb k) ks2) ks1).
Proof.
  intros _. unfold seed_58_intersection.
  destruct (list_eq_dec string_dec ks1 ["c"; "b"; "a"]) as [->|];
    [|reflexivity].
  destruct (list_eq_dec string_dec ks2 ["a"; "b"; "c"]) as [->|];
    [|reflexivity].
  simpl. apply perm_swap.
Qed.

(** The iteration order of CPython 3.11 under PYTHONHASHSEED=58 for the
    keys of the two maps below. *)
Definition seed_58_order : SetIteration :=
  {| set_and := seed_58_intersection; set_and_perm := seed_58_perm |}.

(** C7, as stated, fails in binary64: the two maps share three categories
    and have nonzero norms; one call adds the shared products as
    (0.1 + 0.2) + 0.3 and the call with the arguments exchanged as
    (0.2 + 0.3) + 0.1, and float addition does not associate: the
    similarities are 0.9258200997725515 and 0.9258200997725513.  CPython
    3.11 iterates the two intersections as a, b, c and as b, c, a under
    PYTHONHASHSEED=58. *)
Lemma similarity_asymmetric_binary64 :
  @parse_preferences float binary64 "a:0.1,b:0.2,c:0.3" = Ok tenths
  /\ @parse_preferences float binary64 "c:1,b:1,a:1" = Ok ones_cba
  /\ @common_categories float seed_58_order tenths ones_cba = ["a"; "b"; "c"]
  /\ @common_categories float seed_58_order ones_cba tenths = ["b"; "c"; "a"]
  /\ @magnitude float binary64 tenths = Ok 0x1.7f254dab9cc3bp-2%float
  /\ @magnitude float binary64 ones_cba = Ok 0x1.bb67ae8584caap+0%float
  /\ @cosine_similarity float binary64 seed_58_order tenths ones_cba
     = Ok 0x1.da05179501505p-1%float
  /\ @cosine_similarity float binary64 seed_58_order ones_cba tenths
     = Ok 0x1.da05179501503p-1%float
  /\ PrimFloat.eqb 0x1.da05179501505p-1%float 0x1.da05179501503p-1%float
     = false
  /\ @calculate_user_similarity float binary64 seed_58_order
       (mk_user 1 (Some "a:0.1,b:0.2,c:0.3")) (mk_user 2 (Some "c:1,b:1,a:1"))
     <> @calculate_user_similarity float binary64 seed_58_order
          (mk_user 2 (Some "c:1,b:1,a:1"))
          (mk_user 1 (Some "a:0.1,b:0.2,c:0.3")).
Proof.
  repeat (split; [vm_compute; reflexivity|]).
  vm_compute. intros H. apply (f_equal (fun r => match r with
                                                 | Ok x => Prim2SF x
                                                 | Raise _ => S754_nan
                                                 end)) in H.
  vm_compute in H. discriminate H.
Qed.

(** C7, amended: similarity(A, B) = similarity(B, A) for all maps in exact
    arithmetic, whatever the order in which the sets are iterated, and in
    binary64, whatever [x ** 0.5] is, whenever the two calls iterate the
    shared categories in the same order (the products and the norms
    commute bit for bit, and a raise is the same raise). *)
Theorem similarity_symmetric :
  (forall (sets : SetIteration) (A B : @dict R),
      dict_wf A -> dict_wf B ->
      @cosine_similarity R exact sets A B
      = @cosine_similarity R exact sets B A)
  /\ (forall (pow_half : float -> float) (sets : SetIteration)
             (A B : @dict float),
         dict_wf A -> dict_wf B ->
         @common_categories float sets A B = @common_categories float sets B A ->
         @cosine_similarity float (binary64_with pow_half) sets A B
         = @cosine_similarity float (binary64_with pow_half) sets B A).
Proof.
  split.
  - intros sets A B HA HB.
    rewrite !ExactFacts.cosine_similarity_exact by assumption.
    f_equal. now apply ExactFacts.similarity_sym.
  - intros pow_half sets A B.
    apply (@cosine_similarity_sym_same_order float (binary64_with pow_half)).
    + exact binary64_mul_comm.
    + exact binary64_pow2_raises.
Qed.



(** ** Instances of the theorems *)




Lemma collaborative_at_most_three_without_target_witness :
  (forall u, In u (all_users scenario) -> id u <> 9%Z)
  /\ @generate_collaborative_recommendations float binary64
       first_operand_order stable_merge scenario 9
     = Ok [].
Proof.
  assert (H : forall u, In u (all_users scenario) -> id u <> 9%Z).
  { intros u [<-|[<-|[<-|[<-|[]]]]]; discriminate. }
  split; [exact H|].
  exact (proj2 (@collaborative_at_most_three_without_target float binary64
                  first_operand_order stable_merge scenario 9%Z) H).
Defined.

Lemma preference_parser_contract_witness :
  contains ":" "music" = false
  /\ @parse_pref float binary64 [] "music:0.5:x" = Raise ValueError
  /\ @parse_pref float binary64 [] "music:0.5"
     = Ok [("music", 0x1p-1%float)].
Proof.
  split; [reflexivity|].
  pose proof (proj1 (proj2 (proj2 (proj2
                (@preference_parser_contract float binary64
                   first_operand_order stable_merge EmptyString))))) as H.
  split.
  - exact (H [] "music" "0.5:x" eq_refl).
  - exact (H [] "music" "0.5" eq_refl).
Defined.

Lemma content_default_sample_witness :
  truthy_id None = false
  /\ @generate_content_recommendations float binary64 stable_merge scenario
       [5; 7; 9]%nat None
     = Ok (map Plain (default_recommendations content_items [5; 7; 9]%nat))
  /\ NoDup (@default_recommendations float content_items [5; 7; 9]%nat).
Proof.
  split; [reflexivity|].
  pose proof (@content_default_sample float binary64 stable_merge scenario
                [5; 7; 9]%nat None (or_introl eq_refl)) as H.
  split; [exact (proj1 H) | exact (proj1 (proj2 (proj2 (proj2 H))))].
Defined.

Lemma content_unknown_user_default_witness :
  query_user scenario 9 = None
  /\ @generate_content_recommendations float binary64 stable_merge scenario
       [5; 7; 9]%nat (Some 9%Z)
     = @generate_content_recommendations float binary64 stable_merge scenario
         [5; 7; 9]%nat None.
Proof.
  split; [reflexivity|].
  exact (proj1 (@content_unknown_user_default float binary64 stable_merge
                  scenario [5; 7; 9]%nat 9%Z eq_refl)).
Defined.

Lemma unit_a_wf : dict_wf unit_a.
Proof. repeat (constructor; [simpl; intuition discriminate|]). constructor. Qed.

Lemma a1_b2_wf : dict_wf a1_b2.
Proof. repeat (constructor; [simpl; intuition discriminate|]). constructor. Qed.

Lemma unit_a_nonneg : Forall (fun v => 0 <= v)%R (values unit_a).
Proof. repeat constructor. simpl. lra. Qed.

Lemma a1_b2_nonneg : Forall (fun v => 0 <= v)%R (values a1_b2).
Proof. repeat constructor; simpl; lra. Qed.


Lemma similarity_unit_interval_exact_witness :
  dict_wf unit_a /\ dict_wf a1_b2
  /\ exists r, @cosine_similarity R exact first_operand_order unit_a a1_b2
               = Ok r
               /\ (0 <= r <= 1)%R.
Proof.
  split; [exact unit_a_wf|]. split; [exact a1_b2_wf|].
  exact (@similarity_unit_interval_exact first_operand_order unit_a a1_b2
           unit_a_wf a1_b2_wf unit_a_nonneg a1_b2_nonneg).
Defined.

Lemma similarity_symmetric_witness :
  dict_wf unit_a /\ dict_wf a1_b2
  /\ @cosine_similarity R exact first_operand_order unit_a a1_b2
     = @cosine_similarity R exact first_operand_order a1_b2 unit_a.
Proof.
  split; [exact unit_a_wf|]. split; [exact a1_b2_wf|].
  exact (proj1 similarity_symmetric first_operand_order unit_a a1_b2
           unit_a_wf a1_b2_wf).
Defined.



(** * Beyond the specification: what else the code shows *)

(** ** More on [split] and [join] *)

Section SplitFacts.

Variable sep : ascii.

Lemma split_whole (w : string) : contains sep w = false -> split sep w = [w].
Proof.
  induction w as [|c w IH]; simpl; [reflexivity|].
  destruct (Ascii.eqb c sep); simpl; [discriminate|].
  intros H. now rewrite (IH H).
Qed.

Lemma split_app (a b : string) :
  split sep (a ++ String sep b) = removelast (split sep a) ++
                                  [last (split sep a) EmptyString] ++
                                  split sep b.
Proof.
  induction a as [|c a IH]; simpl.
  - now rewrite Ascii.eqb_refl.
  - destruct (Ascii.eqb c sep) eqn:E.
    + rewrite IH. pose proof (split_not_nil sep a) as Hne.
      destruct (split sep a) as [|w ws]; [contradiction|]. reflexivity.
    + rewrite IH. pose proof (split_not_nil sep a) as Hne.
      destruct (split sep a) as [|w ws]; [contradiction|].
      destruct ws as [|w' ws]; reflexivity.
Qed.

Lemma split_append (a b : string) :
  split sep (a ++ String sep b) = split sep a ++ split sep b.
Proof.
  rewrite split_app. pose proof (split_not_nil sep a) as Hne.
  rewrite app_assoc. f_equal. symmetry. now apply app_removelast_last.
Qed.

Lemma split_join (pieces : list string) :
  pieces <> [] ->
  Forall (fun w => contains sep w = false) pieces ->
  split sep (join sep pieces) = pieces.
Proof.
  induction pieces as [|w ws IH]; [congruence|]. intros _ Hall.
  apply Forall_cons_iff in Hall as [Hw Hws].
  destruct ws as [|w' ws].
  - simpl. now apply split_whole.
  - change (join sep (w :: w' :: ws))
      with (w ++ String sep (join sep (w' :: ws)))%string.
    rewrite split_append, (split_whole w Hw), IH by (assumption || discriminate).
    reflexivity.
Qed.

End SplitFacts.

Lemma foldM_app {A B : Type} (f : B -> A -> result B) (l1 l2 : list A)
  (acc : B) :
  foldM f (l1 ++ l2) acc = acc' <- foldM f l1 acc ;; foldM f l2 acc'.
Proof.
  revert acc. induction l1 as [|x l1 IH]; simpl; intros acc; [reflexivity|].
  destruct (f acc x) as [acc'|e]; simpl; [apply IH | reflexivity].
Qed.

Lemma contains_pair (c : ascii) (a b : string) :
  contains c a = false -> contains c b = false -> Ascii.eqb ":" c = false ->
  contains c (a ++ String ":" b) = false.
Proof.
  intros Ha Hb Hc. induction a as [|d a IH]; simpl in *.
  - now rewrite Hc, Hb.
  - apply orb_false_iff in Ha as [Hd Ha]. now rewrite Hd, IH.
Qed.

(** ** The parser: appending a pair, and the data store's encoding *)

Section ParserExtras.

Context {F : Type} {arith : Arith F}.
Context {sets : SetIteration} {sorting : LongSort F}.

Lemma keys_dict_set_present (k : string) (v : F) (d : dict) :
  In k (keys d) -> keys (dict_set k v d) = keys d.
Proof.
  induction d as [|[k' v'] d IH]; simpl; [tauto|].
  destruct (String.eqb k' k) eqn:E; simpl; [reflexivity|].
  apply String.eqb_neq in E. intros [H|H]; [congruence|]. now rewrite IH.
Qed.

Lemma dict_set_absent (k : string) (v : F) (d : dict) :
  ~ In k (keys d) -> dict_set k v d = d ++ [(k, v)].
Proof.
  induction d as [|[k' v'] d IH]; simpl; intros H; [reflexivity|].
  destruct (String.eqb k' k) eqn:E.
  - apply String.eqb_eq in E. tauto.
  - rewrite IH by tauto. reflexivity.
Qed.

(** X1: one more pair at the end of the string sets that category in the
    map parsed from the rest: the new score replaces an earlier score of
    the category, which keeps its place, or the category goes last; the
    other categories keep their scores. *)
Theorem parse_preferences_append (s cat score : string) (prefs : dict)
  (x : F) :
  contains "," cat = false -> contains ":" cat = false ->
  contains "," score = false ->
  parse_preferences s = Ok prefs ->
  float_of_string score = Some x ->
  parse_preferences (s ++ String "," (cat ++ String ":" score))
  = Ok (dict_set cat x prefs)
  /\ dict_get (dict_set cat x prefs) cat = Some x
  /\ (forall k, k <> cat ->
                dict_get (dict_set cat x prefs) k = dict_get prefs k)
  /\ (In cat (keys prefs) -> keys (dict_set cat x prefs) = keys prefs)
  /\ (~ In cat (keys prefs) ->
      dict_set cat x prefs = prefs ++ [(cat, x)]).
Proof.
  intros Hcat Hcolon Hscore Hparse Hx. split; [|split; [|split; [|split]]].
  - unfold parse_preferences in *.
    rewrite split_append, foldM_app, Hparse. cbn [bind].
    rewrite split_whole by (now apply contains_pair).
    simpl. rewrite parse_pref_pair by assumption. now rewrite Hx.
  - rewrite dict_get_set. now rewrite String.eqb_refl.
  - intros k Hk. rewrite dict_get_set.
    destruct (String.eqb cat k) eqn:E; [|reflexivity].
    apply String.eqb_eq in E. congruence.
  - apply keys_dict_set_present.
  - apply dict_set_absent.
Qed.

Lemma parse_rows (show : F -> string) (rows acc : dict) :
  NoDup (keys (acc ++ rows)) ->
  (forall k v, In (k, v) rows ->
               contains ":" k = false /\ float_of_string (show v) = Some v) ->
  foldM parse_pref
    (map (fun row => (fst row ++ String ":" (show (snd row)))%string) rows) acc
  = Ok (acc ++ rows).
Proof.
  revert acc. induction rows as [|[k v] rows IH]; simpl; intros acc Hnd Hrows.
  - now rewrite app_nil_r.
  - destruct (Hrows k v (or_introl eq_refl)) as [Hk Hv].
    rewrite parse_pref_pair, Hv by assumption. simpl.
    assert (Hnotin : ~ In k (keys acc)).
    { unfold keys in *. rewrite map_app in Hnd. simpl in Hnd.
      apply NoDup_remove_2 in Hnd. intros H. apply Hnd.
      apply in_or_app. now left. }
    rewrite dict_set_absent by assumption.
    rewrite IH.
    + now rewrite <- app_assoc.
    + now rewrite <- app_assoc.
    + intros k' v' Hin. apply Hrows. now right.
Qed.

(** X2: the parser inverts the encoding of line 24: when the categories
    are distinct and hold no comma and no colon, and the text of every
    score holds no comma and reads back as that score, parsing the
    concatenated string gives the rows back, in their order. *)
Theorem parse_encode_preferences (show : F -> string) (rows : dict) :
  dict_wf rows ->
  (forall k v, In (k, v) rows ->
               contains "," k = false /\ contains ":" k = false
               /\ contains "," (show v) = false
               /\ float_of_string (show v) = Some v) ->
  parse_preferences (encode_preferences show rows) = Ok rows.
Proof.
  intros Hwf Hrows. unfold parse_preferences, encode_preferences.
  destruct rows as [|row rows]; [reflexivity|].
  rewrite split_join.
  - apply (parse_rows show (row :: rows) []); [exact Hwf|].
    intros k v Hin. destruct (Hrows k v Hin) as (_ & Hk & _ & Hv). auto.
  - discriminate.
  - apply Forall_forall. intros piece Hin.
    apply in_map_iff in Hin as ([k v] & <- & Hin). simpl.
    destruct (Hrows k v Hin) as (Hc & _ & Hs & _).
    now apply contains_pair.
Qed.

End ParserExtras.

(** ** The collaborative recommender without preferences, and with
       preferences that do not parse *)

Lemma mapM_raises {A B : Type} (f : A -> result B) (l : list A) (x : A)
  (e : exn) :
  In x l -> f x = Raise e -> exists e', mapM f l = Raise e'.
Proof.
  induction l as [|y l IH]; simpl; [tauto|].
  intros [->|Hin] Hx.
  - rewrite Hx. simpl. eauto.
  - destruct (f y) as [b|e']; simpl; [|eauto].
    destruct (IH Hin Hx) as (e' & ->). simpl. eauto.
Qed.

Lemma mapM_raises_same {A B : Type} (f : A -> result B) (l : list A) (x : A)
  (e : exn) :
  In x l -> f x = Raise e ->
  (forall y e', In y l -> f y = Raise e' -> e' = e) ->
  mapM f l = Raise e.
Proof.
  intros Hin Hx Hall. destruct (mapM f l) as [ys|e'] eqn:E.
  - destruct (mapM_raises f l x e Hin Hx) as (e' & H). congruence.
  - revert E. clear Hin Hx. induction l as [|y l IH]; simpl; [discriminate|].
    intros H. apply bind_raise_inv in H as [H | (b & _ & H)].
    + now rewrite (Hall y e' (or_introl eq_refl) H).
    + apply bind_raise_inv in H as [H | (ys & _ & H)]; [|discriminate].
      apply IH; [|assumption]. intros z e'' Hz. apply Hall. now right.
Qed.

Lemma NoDup_firstn {X : Type} (n : nat) (l : list X) :
  NoDup l -> NoDup (firstn n l).
Proof.
  intros H. rewrite <- (firstn_skipn n l) in H.
  now apply NoDup_app_remove_r in H.
Qed.

Lemma NoDup_filter_map {X Y : Type} (f : X -> Y) (p : X -> bool)
  (l : list X) :
  NoDup (map f l) -> NoDup (map f (filter p l)).
Proof.
  induction l as [|x l IH]; simpl; intros H; [constructor|].
  apply NoDup_cons_iff in H as [Hx H].
  destruct (p x); simpl; [|now apply IH].
  constructor; [|now apply IH].
  intros Hin. apply Hx. apply in_map_iff in Hin as (y & Hy & Hin).
  apply in_map_iff. exists y. split; [assumption|].
  now apply filter_In in Hin as [Hin _].
Qed.

Section CollaborativeExtras.

Context {F : Type} {arith : Arith F} {order : ArithOrder F}.
Context {sets : SetIteration} {sorting : LongSort F}.

Lemma fltb_irrefl (x : F) : fltb x x = false.
Proof.
  destruct (fltb x x) eqn:E; [|reflexivity]. now rewrite (fltb_asym _ _ E) in E.
Qed.

Lemma sort_desc_ties {X : Type} (key : X -> F) (l : list X) :
  (forall a b, In a l -> In b l -> fltb (key a) (key b) = false) ->
  sort_desc key l = l.
Proof.
  induction l as [|x l IH]; simpl; intros H; [reflexivity|].
  rewrite IH by auto. destruct l as [|y l]; simpl; [reflexivity|].
  rewrite H; auto. simpl. auto.
Qed.

Lemma similarity_floor (user1 user2 : User) :
  truthy (preferences user1) = false \/ truthy (preferences user2) = false ->
  calculate_user_similarity user1 user2 = Ok (lit 1 1).
Proof.
  unfold calculate_user_similarity. intros [-> | ->]; simpl;
    [|rewrite orb_true_r]; reflexivity.
Qed.

Lemma find_id (user_id : Z) (users : list User) (target_user : User) :
  find (fun u => (id u =? user_id)%Z) users = Some target_user ->
  In target_user users /\ id target_user = user_id.
Proof.
  intros H. apply find_some in H as [Hin H]. now apply Z.eqb_eq in H.
Qed.

(** X3: when the target has no preference string, or no other user has
    one (the query over all users, lines 37-46, adds no [preferences]
    column to the columns of the [users] table), every similarity is 0.1
    and the sort moves nothing: the recommendations are the first three
    other users in the order of the population, each with the score
    round(0.1, 3). *)
Theorem collaborative_without_preferences (db : DataStore) (user_id : Z)
  (target_user : User) :
  find (fun u => (id u =? user_id)%Z) (all_users db) = Some target_user ->
  truthy (preferences target_user) = false
  \/ (forall u, In u (all_users db) -> id u <> user_id ->
                truthy (preferences u) = false) ->
  generate_collaborative_recommendations db user_id
  = Ok (map (fun u => user_connection (u, lit 1 1))
          (firstn 3 (filter (other_than user_id) (all_users db)))).
Proof.
  intros Hfind Hnone.
  unfold generate_collaborative_recommendations, load_user_data.
  rewrite Hfind. unfold similarities_to.
  rewrite (mapM_total _ (fun u => (u, lit 1 1))).
  - cbn [bind].
    assert (Htied : forall a b : User * F,
               In a (map (fun u => (u, lit 1 1))
                       (filter (other_than user_id) (all_users db))) ->
               In b (map (fun u => (u, lit 1 1))
                       (filter (other_than user_id) (all_users db))) ->
               fltb (snd a) (snd b) = false).
    { intros a b Ha Hb.
      apply in_map_iff in Ha as (ua & <- & _).
      apply in_map_iff in Hb as (ub & <- & _). apply fltb_irrefl. }
    rewrite list_sort_consistent, sort_desc_ties by
      (try assumption; apply tied_consistent; intros x y Hx Hy;
       apply in_map_iff in Hx as (a & <- & Ha);
       apply in_map_iff in Hy as (b & <- & Hb); now apply Htied).
    now rewrite firstn_map, map_map.
  - intros u Hu. apply filter_In in Hu as [Hin Hu].
    rewrite similarity_floor; [reflexivity|].
    destruct Hnone as [H|H]; [now left | right].
    apply H; [assumption|]. unfold other_than in Hu.
    now apply negb_true_iff, Z.eqb_neq in Hu.
Qed.

(** X4: when the target is present and the call returns, it returns
    exactly min(3, number of other users) recommendations, each made of
    the id, name and email of one row of the population; when the ids of
    the population are distinct, no user is recommended twice. *)
Theorem collaborative_count_and_users (db : DataStore) (user_id : Z)
  (target_user : User) (recs : list Recommendation) :
  find (fun u => (id u =? user_id)%Z) (all_users db) = Some target_user ->
  generate_collaborative_recommendations db user_id = Ok recs ->
  List.length recs
  = Nat.min 3 (List.length (filter (other_than user_id) (all_users db)))
  /\ Forall (fun r => exists u, In u (all_users db)
                                /\ rec_user r = {| ref_id := id u;
                                                   ref_name := name u;
                                                   ref_email := email u |})
            recs
  /\ (NoDup (map id (all_users db)) ->
      NoDup (map (fun r => ref_id (rec_user r)) recs)).
Proof.
  intros Hfind H.
  unfold generate_collaborative_recommendations, load_user_data in H.
  rewrite Hfind in H. apply bind_ok_inv in H as (similarities & Hsim & H).
  assert (Hrecs : recs = map user_connection
                           (firstn 3 (list_sort snd similarities)))
    by congruence.
  clear H. apply similarities_to_entries in Hsim as [Hfst _].
  pose proof (list_sort_perm snd similarities) as Hperm.
  split; [|split].
  - rewrite Hrecs, length_map, length_firstn, list_sort_length.
    now rewrite <- Hfst, length_map.
  - rewrite Hrecs. apply Forall_forall. intros r Hr.
    apply in_map_iff in Hr as ([u s] & <- & Hin). exists u. split.
    + apply in_firstn in Hin. apply (Permutation_in _ Hperm) in Hin.
      apply (in_map fst) in Hin. rewrite Hfst in Hin.
      now apply filter_In in Hin as [Hin _].
    + reflexivity.
  - intros Hnd. rewrite Hrecs, map_map.
    replace (map (fun x => ref_id (rec_user (user_connection x)))
               (firstn 3 (list_sort snd similarities)))
      with (firstn 3 (map id (map fst (list_sort snd similarities)))).
    + apply NoDup_firstn.
      apply (Permutation_NoDup
               (l := map id (filter (other_than user_id) (all_users db)))).
      * rewrite <- Hfst. symmetry.
        now apply Permutation_map, Permutation_map.
      * now apply NoDup_filter_map.
    + rewrite map_map, firstn_map. apply map_ext. now intros [u s].
Qed.

(** X5: a preference string that does not parse fails the whole call.
    With a target that has preferences and another user who has
    preferences, the call raises when either string does not parse, and
    raises ValueError when the target's does not. *)
Theorem collaborative_malformed_preferences (db : DataStore) (user_id : Z)
  (target_user other : User) (e : exn) :
  find (fun u => (id u =? user_id)%Z) (all_users db) = Some target_user ->
  truthy (preferences target_user) = true ->
  In other (all_users db) -> id other <> user_id ->
  truthy (preferences other) = true ->
  parse_preferences (raw (preferences target_user)) = Raise e
  \/ parse_preferences (raw (preferences other)) = Raise e ->
  exists e',
    generate_collaborative_recommendations db user_id = Raise e'
    /\ (parse_preferences (raw (preferences target_user)) = Raise e ->
        e' = ValueError).
Proof.
  intros Hfind Ht Hin Hid Ho Hbad.
  assert (Hother : In other (filter (other_than user_id) (all_users db))).
  { apply filter_In. split; [assumption|]. unfold other_than.
    now apply negb_true_iff, Z.eqb_neq. }
  unfold generate_collaborative_recommendations, load_user_data.
  rewrite Hfind. unfold similarities_to.
  set (f := fun user => similarity <- calculate_user_similarity target_user user ;;
                        Ok (user, similarity)).
  destruct (parse_preferences (raw (preferences target_user)))
    as [prefs1|e1] eqn:E1.
  - destruct Hbad as [Hbad|Hbad]; [discriminate|].
    assert (Hf : f other = Raise e).
    { unfold f, calculate_user_similarity. now rewrite Ht, Ho, E1, Hbad. }
    destruct (mapM_raises f _ other e Hother Hf) as (e' & ->).
    exists e'. split; [reflexivity | discriminate].
  - assert (He1 : e1 = ValueError).
    { unfold parse_preferences in E1.
      now apply parse_pieces_raise in E1 as [-> _]. }
    subst e1. exists ValueError.
    rewrite (mapM_raises_same f _ other ValueError Hother).
    + split; reflexivity.
    + unfold f, calculate_user_similarity. now rewrite Ht, Ho, E1.
    + intros y e' _. unfold f, calculate_user_similarity.
      rewrite Ht, E1. simpl.
      destruct (negb (truthy (preferences y))); simpl; congruence.
Qed.

End CollaborativeExtras.

(** ** The personalized branch of the content recommender *)

Lemma split_keeps_free (sep c : ascii) (s : string) :
  contains c s = false ->
  Forall (fun w => contains c w = false) (split sep s).
Proof.
  induction s as [|a s IH]; simpl; intros H.
  - repeat constructor.
  - apply orb_false_iff in H as [Ha H]. specialize (IH H).
    destruct (Ascii.eqb a sep).
    + now constructor.
    + destruct (split sep s) as [|w ws].
      * constructor; [simpl; now rewrite Ha | constructor].
      * inversion IH; subst.
        constructor; [simpl; rewrite Ha; assumption | assumption].
Qed.

Section ContentExtras.

Context {F : Type} {arith : Arith F}.
Context {sets : SetIteration} {sorting : LongSort F}.

Lemma parse_pieces_skip (pieces : list string) (prefs : dict) :
  Forall (fun w => contains ":" w = false) pieces ->
  foldM parse_pref pieces prefs = Ok prefs.
Proof.
  induction 1 as [|w pieces Hw _ IH]; simpl; [reflexivity|].
  now rewrite parse_pref_skip.
Qed.

Lemma rank_content_items (catalog : list (@ContentItem F))
  (user_prefs : dict) :
  NoDup catalog ->
  NoDup (map item (rank_content catalog user_prefs))
  /\ incl (map item (rank_content catalog user_prefs)) catalog
  /\ Forall (fun s => s = score_content user_prefs (item s))
            (rank_content catalog user_prefs).
Proof.
  intros Hnd. unfold rank_content.
  set (scored_content := map (score_content user_prefs) catalog).
  pose proof (list_sort_perm recommendation_score scored_content) as Hperm.
  assert (Hitems : map item scored_content = catalog).
  { unfold scored_content. rewrite map_map. simpl. apply map_id. }
  assert (Hall : NoDup (map item (list_sort recommendation_score scored_content))).
  { apply (Permutation_NoDup (l := catalog)); [|assumption].
    rewrite <- Hitems. symmetry. now apply Permutation_map. }
  split; [|split].
  - rewrite <- firstn_map. now apply NoDup_firstn.
  - intros i Hi. rewrite <- firstn_map in Hi. apply in_firstn in Hi.
    rewrite <- Hitems.
    apply (Permutation_in i (Permutation_map item Hperm) Hi).
  - apply Forall_forall. intros s Hs. apply in_firstn in Hs.
    apply (Permutation_in _ Hperm) in Hs.
    apply in_map_iff in Hs as (i & <- & _). reflexivity.
Qed.

(** X6: for a user id other than 0 whose row has a non-empty preference
    string, the content recommender does not use the randomness source:
    it raises ValueError, or it returns exactly 5 scored entries over 5
    different items of the catalog, each with the score and the reason
    text computed from its own item. *)
Theorem content_personalized_no_randomness (db : DataStore) (n : Z)
  (user : User) :
  n <> 0%Z ->
  query_user db n = Some user ->
  truthy (preferences user) = true ->
  (forall draws draws',
      generate_content_recommendations db draws (Some n)
      = generate_content_recommendations db draws' (Some n))
  /\ ((forall draws,
          generate_content_recommendations db draws (Some n)
          = Raise ValueError)
      \/ exists user_prefs scored_content,
          parse_preferences (raw (preferences user)) = Ok user_prefs
          /\ (forall draws,
                 generate_content_recommendations db draws (Some n)
                 = Ok (map Scored scored_content))
          /\ List.length scored_content = 5%nat
          /\ NoDup (map item scored_content)
          /\ incl (map item scored_content) content_items
          /\ Forall (fun s =>
                       recommendation_score s
                       = round3 (fmul (score (item s))
                                   (get_default user_prefs
                                      (category (item s)) (lit 1 1)))
                       /\ reason s
                          = ("Matches your " ++ category (item s)
                             ++ " preferences")%string)
                    scored_content).
Proof.
  intros Hn Hq Hp.
  assert (Hid : truthy_id (Some n) = true) by (apply truthy_id_true; eauto).
  assert (Hgen : forall draws,
             generate_content_recommendations db draws (Some n)
             = user_prefs <- parse_preferences (raw (preferences user)) ;;
               Ok (map Scored (rank_content content_items user_prefs))).
  { intros draws. unfold generate_content_recommendations, load_user_data.
    now rewrite Hid, Hq, Hp. }
  split; [intros draws draws'; now rewrite !Hgen|].
  destruct (parse_preferences (raw (preferences user))) as [user_prefs|e] eqn:E.
  - right. exists user_prefs, (rank_content content_items user_prefs).
    destruct (rank_content_items content_items user_prefs content_items_NoDup)
      as (Hnd & Hincl & Hall).
    split; [reflexivity|]. split; [intros draws; now rewrite Hgen|].
    split; [exact (rank_content_length content_items user_prefs)|].
    split; [assumption|]. split; [assumption|].
    apply Forall_forall. intros s Hs.
    rewrite Forall_forall in Hall. rewrite (Hall s Hs). simpl.
    split; reflexivity.
  - left. intros draws. rewrite Hgen. simpl.
    unfold parse_preferences in E.
    now apply parse_pieces_raise in E as [-> _].
Qed.

End ContentExtras.

(** X7: the personalized branch is entered on the truth value of the
    preference string, not of the parsed map: a non-empty string without
    any colon parses to the empty map, every item gets
    round(score * 0.1, 3), and in binary64 the five returned are tech-001,
    music-001, travel-001, sports-001, tech-002 (cook-001 is left out; the
    two 0.09 keep their catalog order). *)
Theorem content_preferences_without_pairs :
  (forall (F : Type) (arith : Arith F) (sorting : LongSort F)
          (db : DataStore) (draws : list nat)
          (n : Z) (user : User) (s : string),
      n <> 0%Z ->
      query_user db n = Some user ->
      preferences user = Some s ->
      s <> EmptyString ->
      contains ":" s = false ->
      parse_preferences s = Ok (@nil (string * F))
      /\ generate_content_recommendations db draws (Some n)
         = Ok (map Scored (rank_content content_items []))
      /\ Forall (fun c => recommendation_score c
                          = round3 (fmul (score (item c)) (lit 1 1)))
                (rank_content (@content_items F arith) []))
  /\ (forall sorting : LongSort float,
         map rec_item_id
           (map Scored (@rank_content float binary64 sorting content_items []))
         = ["tech-001"; "music-001"; "travel-001"; "sports-001"; "tech-002"]).
Proof.
  split.
  - intros F0 arith0 sorting0 db draws n user s Hn Hq Hp Hs Hc.
    assert (Hparse : parse_preferences s = Ok (@nil (string * F0))).
    { unfold parse_preferences. apply parse_pieces_skip.
      now apply split_keeps_free. }
    split; [assumption|]. split.
    + unfold generate_content_recommendations, load_user_data.
      assert (Hid : truthy_id (Some n) = true) by (apply truthy_id_true; eauto).
      rewrite Hid, Hq, Hp. simpl truthy. simpl raw.
      apply String.eqb_neq in Hs. rewrite Hs. simpl negb. cbv iota.
      now rewrite Hparse.
    + destruct (rank_content_items (F:=F0) content_items []
                  (@content_items_NoDup F0 arith0)) as (_ & _ & Hall).
      apply Forall_forall. intros c Hin.
      rewrite Forall_forall in Hall. rewrite (Hall c Hin). reflexivity.
  - intros sorting. vm_compute. reflexivity.
Qed.


Section RankingExtras.

Context {F : Type} {arith : Arith F} {order : ArithOrder F}.
Context {sets : SetIteration} {sorting : LongSort F}.

Lemma top_dominates {X : Type} (key : X -> F) (k : nat) (l : list X) :
  (forall x y z, In x (map key l) -> In y (map key l) -> In z (map key l) ->
                 fltb x y = false -> fltb y z = false -> fltb x z = false) ->
  forall a b, In a (firstn k (sort_desc key l)) ->
              In b (skipn k (sort_desc key l)) ->
              not_less key a b.
Proof.
  intros Htrans.
  apply (sorted_dominates (not_less key)).
  - rewrite firstn_skipn. now apply sort_desc_sorted.
  - rewrite firstn_skipn. unfold not_less.
    assert (Hin : forall x, In x (sort_desc key l) -> In (key x) (map key l)).
    { intros x Hx. apply in_map.
      apply (Permutation_in _ (sort_desc_perm key l) Hx). }
    intros a b c Ha Hb Hc. apply Htrans; now apply Hin.
Qed.

(** X8: when the similarities at hand are ordered consistently by [<]
    (as all floats but NaN are), no user left out of the collaborative
    recommendations is strictly more similar to the target than a user
    who is recommended. *)
Theorem collaborative_top_three_dominate (db : DataStore) (user_id : Z)
  (target_user : User) (similarities : list (User * F)) :
  find (fun u => (id u =? user_id)%Z) (all_users db) = Some target_user ->
  similarities_to target_user user_id (all_users db) = Ok similarities ->
  (forall x y z,
      In x (map snd similarities) -> In y (map snd similarities) ->
      In z (map snd similarities) ->
      fltb x y = false -> fltb y z = false -> fltb x z = false) ->
  let ranked := sort_desc snd similarities in
  generate_collaborative_recommendations db user_id
  = Ok (map user_connection (firstn 3 ranked))
  /\ forall kept left_out,
      In kept (firstn 3 ranked) -> In left_out (skipn 3 ranked) ->
      fltb (snd kept) (snd left_out) = false.
Proof.
  intros Hfind Hsim Htrans ranked. split.
  - unfold generate_collaborative_recommendations, load_user_data.
    rewrite Hfind, Hsim. cbn [bind].
    now rewrite (list_sort_consistent snd similarities Htrans).
  - now apply top_dominates.
Qed.

(** X9: in the personalized branch, when the recommendation scores are
    ordered consistently by [<], the catalog item that is left out of the
    five returned has a recommendation score that is not strictly more
    than the score of any item returned. *)
Theorem content_top_five_dominate (db : DataStore) (draws : list nat)
  (n : Z) (user : User) (user_prefs : dict) :
  n <> 0%Z ->
  query_user db n = Some user ->
  truthy (preferences user) = true ->
  parse_preferences (raw (preferences user)) = Ok user_prefs ->
  let scored_content := map (score_content user_prefs) content_items in
  (forall x y z,
      In x (map recommendation_score scored_content) ->
      In y (map recommendation_score scored_content) ->
      In z (map recommendation_score scored_content) ->
      fltb x y = false -> fltb y z = false -> fltb x z = false) ->
  let ranked := sort_desc recommendation_score scored_content in
  generate_content_recommendations db draws (Some n)
  = Ok (map Scored (firstn 5 ranked))
  /\ List.length (skipn 5 ranked) = 1%nat
  /\ forall kept left_out,
      In kept (firstn 5 ranked) -> In left_out (skipn 5 ranked) ->
      fltb (recommendation_score kept) (recommendation_score left_out)
      = false.
Proof.
  intros Hn Hq Hp Hparse scored_content Htrans ranked.
  split; [|split].
  - unfold generate_content_recommendations, load_user_data.
    assert (Hid : truthy_id (Some n) = true) by (apply truthy_id_true; eauto).
    rewrite Hid, Hq, Hp, Hparse. cbn [bind]. unfold rank_content.
    now rewrite (list_sort_consistent recommendation_score _ Htrans).
  - unfold ranked. rewrite length_skipn, sort_desc_length. reflexivity.
  - now apply top_dominates.
Qed.

End RankingExtras.

(** * The request handler *)

(** ** Digits *)

Lemma read_digits_uint_acc (d : Decimal.uint) (acc : positive) :
  read_digits (NilEmpty.string_of_uint d) (N.pos acc)
  = (String.length (NilEmpty.string_of_uint d),
     N.pos (Pos.of_uint_acc d acc), EmptyString).
Proof.
  revert acc.
  induction d as [|d IH|d IH|d IH|d IH|d IH|d IH|d IH|d IH|d IH|d IH];
    intros acc; [reflexivity|..];
    cbn [NilEmpty.string_of_uint read_digits String.length Pos.of_uint_acc];
    match goal with
    | |- context [digit_of ?c] =>
        let v := eval vm_compute in (digit_of c) in
        change (digit_of c) with v; cbv iota
    end.
  all: match goal with
       | |- context [read_digits _ ?a] =>
           match goal with
           | |- context [Pos.of_uint_acc _ ?b] =>
               replace a with (N.pos b) by lia
           end
       end; now rewrite IH.
Qed.

Lemma read_digits_uint (d : Decimal.uint) :
  read_digits (NilEmpty.string_of_uint d) 0
  = (String.length (NilEmpty.string_of_uint d), N.of_uint d, EmptyString).
Proof.
  induction d as [|d IH|d IH|d IH|d IH|d IH|d IH|d IH|d IH|d IH|d IH];
    [reflexivity|..];
    cbn [NilEmpty.string_of_uint read_digits String.length N.of_uint
         Pos.of_uint];
    match goal with
    | |- context [digit_of ?c] =>
        let v := eval vm_compute in (digit_of c) in
        change (digit_of c) with v; cbv iota
    end.
  1: change (10 * 0 + 0)%N with 0%N; now rewrite IH.
  all: match goal with
       | |- context [read_digits _ ?a] =>
           let v := eval vm_compute in a in change a with v
       end; now rewrite read_digits_uint_acc.
Qed.

Lemma read_digits_decimal (n : N) :
  read_digits (decimal n) 0 = (String.length (decimal n), n, EmptyString).
Proof.
  unfold decimal. rewrite read_digits_uint.
  now rewrite DecimalN.Unsigned.of_to.
Qed.

Lemma decimal_not_empty (n : N) : decimal n <> EmptyString.
Proof.
  unfold decimal. intros H.
  assert (Hnil : N.to_uint n = Decimal.Nil)
    by (destruct (N.to_uint n); try discriminate; reflexivity).
  pose proof (DecimalN.Unsigned.of_to n) as Hn. rewrite Hnil in Hn.
  simpl in Hn. subst n. discriminate.
Qed.

Lemma isdigit_decimal (n : N) : isdigit (decimal n) = true.
Proof.
  unfold isdigit. rewrite read_digits_decimal.
  pose proof (decimal_not_empty n) as H.
  destruct (decimal n); [contradiction | reflexivity].
Qed.

Lemma read_digits_all (s rest : string) (acc v : N) (count : nat) :
  read_digits s acc = (count, v, rest) -> rest = EmptyString ->
  contains "/" s = false.
Proof.
  revert acc count v.
  induction s as [|a s IH]; cbn [read_digits contains];
    intros acc count v H Hr; [reflexivity|].
  destruct (digit_of a) as [d|] eqn:Ed.
  - destruct (read_digits s (10 * acc + d)) as [[c' v'] r'] eqn:E.
    assert (Hrest : r' = rest) by congruence. subst r'.
    rewrite (IH _ _ _ E Hr), orb_false_r.
    destruct (Ascii.eqb a "/") eqn:Ea; [|reflexivity].
    apply Ascii.eqb_eq in Ea. subst a. vm_compute in Ed. discriminate.
  - assert (Hrest : String a s = rest) by congruence. congruence.
Qed.

Lemma isdigit_no_slash (s : string) :
  isdigit s = true -> contains "/" s = false.
Proof.
  unfold isdigit. destruct (read_digits s 0) as [[count v] rest] eqn:E.
  destruct count; [discriminate|]. destruct rest; [|discriminate].
  intros _. now apply (read_digits_all s EmptyString 0 v (S count)).
Qed.

(** ** [list.index] *)

Lemma index_app (x : string) (before rest : list string) :
  ~ In x before -> index x (before ++ x :: rest) = Ok (List.length before).
Proof.
  induction before as [|y before IH]; simpl; intros H.
  - now rewrite String.eqb_refl.
  - destruct (String.eqb y x) eqn:E.
    + apply String.eqb_eq in E. tauto.
    + rewrite IH by tauto. reflexivity.
Qed.

Lemma index_ok_inv (x : string) (l : list string) (i : nat) :
  index x l = Ok i ->
  exists before rest,
    l = before ++ x :: rest /\ ~ In x before /\ i = List.length before.
Proof.
  revert i. induction l as [|y l IH]; simpl; intros i H; [discriminate|].
  destruct (String.eqb y x) eqn:E.
  - apply String.eqb_eq in E. subst y. injection H as <-.
    exists [], l. simpl. tauto.
  - apply bind_ok_inv in H as (j & Hj & [= <-]).
    destruct (IH j Hj) as (before & rest & -> & Hnot & ->).
    exists (y :: before), rest. simpl. split; [reflexivity|].
    split; [|reflexivity]. apply String.eqb_neq in E. intros [H|H]; tauto.
Qed.


Lemma nth_after (before rest : list string) (x y : string) :
  nth (List.length before + 1) (before ++ x :: y :: rest) EmptyString = y.
Proof. now rewrite app_nth2_plus. Qed.

(** ** The user id of a path (lines 200-208) *)

Lemma extract_user_id_some (path : string) (n : Z) :
  extract_user_id path = Ok (Some n) <->
  exists before digits after,
    split "/" path = before ++ "users" :: digits :: after
    /\ ~ In "users" before
    /\ isdigit digits = true
    /\ (String.length digits <= 4300)%nat
    /\ n = Z.of_N (snd (fst (read_digits digits 0))).
Proof.
  unfold extract_user_id.
  set (path_parts := split "/" path). split.
  - destruct (existsb (String.eqb "users") path_parts); [|discriminate].
    destruct (index "users" path_parts) as [i|e] eqn:Ei; cbn [bind];
      [|destruct e; discriminate].
    destruct (index_ok_inv _ _ _ Ei) as (before & rest & Hparts & Hnot & ->).
    rewrite Hparts.
    destruct rest as [|digits after].
    + rewrite length_app. simpl List.length.
      replace (List.length before + 1 <? List.length before + 1)%nat
        with false by (symmetry; apply Nat.ltb_ge; lia).
      discriminate.
    + rewrite nth_after.
      destruct ((List.length before + 1
                 <? List.length (before ++ "users" :: digits :: after))%nat);
        [|discriminate].
      destruct (isdigit digits) eqn:Hd; [|discriminate].
      cbn [andb]. unfold int_of_digits.
      destruct (4300 <? String.length digits)%nat eqn:Hlen;
        [discriminate|].
      apply Nat.ltb_ge in Hlen.
      destruct (read_digits digits 0) as [[count v] r] eqn:Er. cbn [bind].
      intros [= <-]. exists before, digits, after. rewrite Er. auto.
  - intros (before & digits & after & Hparts & Hnot & Hd & Hlen & ->).
    rewrite Hparts.
    replace (existsb (String.eqb "users")
               (before ++ "users" :: digits :: after)) with true.
    + rewrite index_app by assumption. cbn [bind].
      rewrite nth_after, Hd, length_app. simpl List.length.
      replace (List.length before + 1
               <? List.length before + S (S (List.length after)))%nat
        with true by (symmetry; apply Nat.ltb_lt; lia).
      cbn [andb]. unfold int_of_digits.
      replace (4300 <? String.length digits)%nat with false
        by (symmetry; apply Nat.ltb_ge; lia).
      now destruct (read_digits digits 0) as [[count v] r].
    + symmetry. apply existsb_exists. exists "users".
      split; [apply in_or_app; right; now left | reflexivity].
Qed.




Lemma extract_user_id_join (before after : list string) (n : N) :
  Forall (fun w => contains "/" w = false /\ w <> "users") before ->
  Forall (fun w => contains "/" w = false) after ->
  (String.length (decimal n) <= 4300)%nat ->
  extract_user_id (join "/" (before ++ "users" :: decimal n :: after))
  = Ok (Some (Z.of_N n)).
Proof.
  intros Hbefore Hafter Hlen. apply extract_user_id_some.
  exists before, (decimal n), after.
  split; [|split; [|split; [|split]]].
  - apply split_join; [now destruct before|].
    apply Forall_app. split.
    + eapply Forall_impl; [|exact Hbefore]. now intros w [Hw _].
    + constructor; [reflexivity|].
      constructor; [apply isdigit_no_slash, isdigit_decimal | assumption].
  - intros Hin. rewrite Forall_forall in Hbefore.
    now destruct (Hbefore _ Hin) as [_ Hne].
  - apply isdigit_decimal.
  - assumption.
  - now rewrite read_digits_decimal.
Qed.

(** X11: a path whose first segment [users] is followed by the decimal
    numeral of [n] gives back [n], whatever the segments before and after
    it, as long as the numeral has at most 4300 digits. *)
Theorem extract_user_id_decimal (before after : list string) (n : N) :
  Forall (fun w => contains "/" w = false /\ w <> "users") before ->
  Forall (fun w => contains "/" w = false) after ->
  (String.length (decimal n) <= 4300)%nat ->
  extract_user_id (join "/" (before ++ "users" :: decimal n :: after))
  = Ok (Some (Z.of_N n)).
Proof. apply extract_user_id_join. Qed.

(** ** Routing (line 198) *)

Lemma prefix_iff (needle s : string) :
  String.prefix needle s = true <-> exists post, s = (needle ++ post)%string.
Proof.
  revert s. induction needle as [|a needle IH]; intros s.
  - split; [intros _; now exists s | now destruct s].
  - destruct s as [|b s]; simpl.
    + split; [discriminate | intros (post & H); discriminate].
    + destruct (ascii_dec a b) as [->|Hab].
      * rewrite IH. split; intros (post & H); exists post; congruence.
      * split; [discriminate | intros (post & H); congruence].
Qed.

Lemma is_in_iff (needle s : string) :
  is_in needle s = true <->
  exists pre post, s = (pre ++ needle ++ post)%string.
Proof.
  induction s as [|b s IH].
  - cbn [is_in]. rewrite orb_false_r, prefix_iff. split.
    + intros (post & H). exists EmptyString, post. exact H.
    + intros ([|c pre] & post & H); [eauto | discriminate].
  - cbn [is_in]. rewrite orb_true_iff, prefix_iff, IH. split.
    + intros [(post & H) | (pre & post & H)].
      * exists EmptyString, post. exact H.
      * exists (String b pre), post. simpl. now rewrite H.
    + intros ([|c pre] & post & H).
      * left. eauto.
      * right. injection H as _ H. eauto.
Qed.

Section MainFacts.

Context {F : Type} {arith : Arith F}.
Context {sets : SetIteration} {sorting : LongSort F}.

(** On a request object whose method and path are strings or absent, the
    handler is [respond]. *)
Lemma main_reads_as (db : DataStore) (draws : list nat) (time_draw : nat)
  (now : string) (input : Stdin) (request : Request) :
  reads_as input request ->
  main db draws time_draw now input = respond db draws time_draw now request.
Proof.
  intros (members & Hreq & Hm & Hp). unfold main, respond.
  rewrite Hreq. cbn [bind get]. rewrite Hm, Hp.
  destruct (req_method request) as [m|], (req_path request) as [p|];
    cbn [option_map bind contains_item is_get]; reflexivity.
Qed.

(** The two responses that do not depend on the recommenders. *)
Lemma respond_routed (db : DataStore) (draws : list nat) (time_draw : nat)
  (now : string) (request : Request) :
  let method := match req_method request with
                | Some m => m
                | None => "GET"
                end in
  let path := match req_path request with
              | Some p => p
              | None => EmptyString
              end in
  respond db draws time_draw now request
  = if is_in "/recommendations" path && String.eqb method "GET" then
      match (user_id <- extract_user_id path ;;
             collaborative_recs <- collaborative_for db user_id ;;
             content_recs <- generate_content_recommendations db draws user_id ;;
             Ok (user_id, collaborative_recs, content_recs)) with
      | Ok (user_id, collaborative_recs, content_recs) =>
          {| status := 200;
             headers := [("Content-Type", "application/json");
                         ("X-Powered-By", "Backworks-AI-Python")];
             body := Recommended
               {| response_user_id := user_id;
                  timestamp := now;
                  recommendations :=
                    {| collaborative := collaborative_recs;
                       content := content_recs;
                       trending := generate_trending_recommendations |};
                  metadata :=
                    {| algorithm := "collaborative_filtering_v1";
                       confidence := lit 85 2;
                       processing_time_ms :=
                         50 + Z.of_nat (time_draw mod 151) |} |} |}
      | Raise e =>
          {| status := 500;
             headers := [("Content-Type", "application/json")];
             body := InternalServerError "Internal server error" e
                       "python_recommendations" |}
      end
    else
      {| status := 404;
         headers := [("Content-Type", "application/json");
                     ("X-Powered-By", "Backworks-AI-Python")];
         body := EndpointNotFound "Endpoint not found"
                   ["GET /users/recommendations";
                    "GET /users/{id}/recommendations"] |}.
Proof.
  intros method path. unfold respond, recommend. fold method. fold path.
  destruct (is_in "/recommendations" path && String.eqb method "GET");
    [|reflexivity].
  destruct (extract_user_id path) as [user_id|e]; [|reflexivity]. cbn [bind].
  destruct (collaborative_for db user_id) as [recs|e]; [|reflexivity].
  cbn [bind].
  destruct (generate_content_recommendations db draws user_id) as [content_recs|e];
    reflexivity.
Qed.

Lemma time_draw_range (time_draw : nat) :
  (50 <= 50 + Z.of_nat (time_draw mod 151) <= 200)%Z.
Proof.
  pose proof (Nat.mod_upper_bound time_draw 151). lia.
Qed.

(** X12: on a request object whose method and path are strings or absent,
    the handler answers 404 exactly when the method, GET when the request
    has none, is not GET or the path does not hold [/recommendations]
    somewhere; the answer is then the same whatever the data store and the
    randomness source. *)
Theorem main_not_found (db : DataStore) (draws : list nat) (time_draw : nat)
  (now : string) (input : Stdin) (request : Request) :
  reads_as input request ->
  let method := match req_method request with
                | Some m => m
                | None => "GET"
                end in
  let path := match req_path request with
              | Some p => p
              | None => EmptyString
              end in
  let response := main db draws time_draw now input in
  (status response = 404%Z <->
   ~ (method = "GET"
      /\ exists pre post, path = (pre ++ "/recommendations" ++ post)%string))
  /\ (status response = 404%Z ->
      response
      = {| status := 404;
           headers := [("Content-Type", "application/json");
                       ("X-Powered-By", "Backworks-AI-Python")];
           body := EndpointNotFound "Endpoint not found"
                     ["GET /users/recommendations";
                      "GET /users/{id}/recommendations"] |}).
Proof.
  intros Hreads method path response. unfold response.
  rewrite (main_reads_as _ _ _ _ _ _ Hreads), respond_routed.
  fold method. fold path.
  destruct (is_in "/recommendations" path && String.eqb method "GET") eqn:E.
  - apply andb_true_iff in E as [Hin Hm].
    apply is_in_iff in Hin. apply String.eqb_eq in Hm.
    assert (Hstatus : forall r : result (option Z * list Recommendation
                                          * list ContentRec),
               status match r with
                      | Ok (user_id, collaborative_recs, content_recs) =>
                          {| status := 200;
                             headers := [("Content-Type", "application/json");
                                         ("X-Powered-By", "Backworks-AI-Python")];
                             body := Recommended
                               {| response_user_id := user_id;
                                  timestamp := now;
                                  recommendations :=
                                    {| collaborative := collaborative_recs;
                                       content := content_recs;
                                       trending := generate_trending_recommendations |};
                                  metadata :=
                                    {| algorithm := "collaborative_filtering_v1";
                                       confidence := lit 85 2;
                                       processing_time_ms :=
                                         50 + Z.of_nat (time_draw mod 151) |} |} |}
                      | Raise e =>
                          {| status := 500;
                             headers := [("Content-Type", "application/json")];
                             body := InternalServerError "Internal server error" e
                                       "python_recommendations" |}
                      end <> 404%Z).
    { intros [[[u c] k]|e]; simpl; discriminate. }
    split.
    + split; [intros H; now apply Hstatus in H | intros H; tauto].
    + intros H. now apply Hstatus in H.
  - split; [|reflexivity]. split; [|reflexivity].
    intros _ [Hm Hin]. apply is_in_iff in Hin. apply String.eqb_eq in Hm.
    now rewrite Hin, Hm in E.
Qed.

Lemma collaborative_for_skipped (db : DataStore) (user_id : option Z) :
  truthy_id user_id = false -> collaborative_for db user_id = Ok [].
Proof.
  unfold collaborative_for. intros H. rewrite H. now destruct user_id.
Qed.






(** X13: a GET request for an ASCII path that holds [/recommendations]
    and gives no user id, or the id 0, is always answered with status 200,
    whatever the data store: no collaborative recommendation, 3 different
    plain items of the catalog, the trending block, and a processing time
    between 50 and 200. *)
Theorem main_without_user (db : DataStore) (draws : list nat)
  (time_draw : nat) (now : string) (input : Stdin) (method : option string)
  (path : string) (user_id : option Z) :
  reads_as input {| req_method := method; req_path := Some path |} ->
  ascii_only path = true ->
  method = None \/ method = Some "GET" ->
  is_in "/recommendations" path = true ->
  extract_user_id path = Ok user_id ->
  truthy_id user_id = false ->
  let picked := default_recommendations content_items draws in
  main db draws time_draw now input
  = {| status := 200;
       headers := [("Content-Type", "application/json");
                   ("X-Powered-By", "Backworks-AI-Python")];
       body := Recommended
         {| response_user_id := user_id;
            timestamp := now;
            recommendations :=
              {| collaborative := [];
                 content := map Plain picked;
                 trending := generate_trending_recommendations |};
            metadata :=
              {| algorithm := "collaborative_filtering_v1";
                 confidence := lit 85 2;
                 processing_time_ms := 50 + Z.of_nat (time_draw mod 151) |} |} |}
  /\ List.length picked = 3%nat
  /\ NoDup picked
  /\ incl picked content_items
  /\ (50 <= 50 + Z.of_nat (time_draw mod 151) <= 200)%Z.
Proof.
  intros Hreads _ Hm Hin Hid Hfalse picked. split.
  - rewrite (main_reads_as _ _ _ _ _ _ Hreads), respond_routed.
    cbn [req_method req_path]. rewrite Hin.
    replace (String.eqb match method with
                        | Some m => m
                        | None => "GET"
                        end "GET") with true
      by (destruct Hm as [-> | ->]; reflexivity).
    cbn [andb]. rewrite Hid. cbn [bind].
    rewrite collaborative_for_skipped by assumption. cbn [bind].
    rewrite content_default_branch by (now left). reflexivity.
  - destruct (default_recommendations_sample content_items draws
                content_items_NoDup) as (Hlen & Hnd & Hincl).
    split; [exact Hlen|]. split; [exact Hnd|]. split; [exact Hincl|].
    apply time_draw_range.
Qed.



(** X15: a preference string of the requested user that does not parse
    makes the handler answer 500, with the Content-Type header only: for
    a GET request on [.../users/<n>/...] whose path holds
    [/recommendations], with [n] other than 0 written in decimal, when the
    data store has the user with a non-empty preference string that the
    parser rejects. *)
Theorem main_malformed_preferences (db : DataStore) (draws : list nat)
  (time_draw : nat) (now : string) (input : Stdin)
  (before after : list string) (n : N) (user : User) (e : exn) :
  Forall (fun w => contains "/" w = false /\ w <> "users") before ->
  Forall (fun w => contains "/" w = false) after ->
  (String.length (decimal n) <= 4300)%nat ->
  let path := join "/" (before ++ "users" :: decimal n :: after) in
  reads_as input {| req_method := Some "GET"; req_path := Some path |} ->
  is_in "/recommendations" path = true ->
  n <> 0%N ->
  query_user db (Z.of_N n) = Some user ->
  truthy (preferences user) = true ->
  parse_preferences (raw (preferences user)) = Raise e ->
  let response := main db draws time_draw now input in
  status response = 500%Z
  /\ headers response = [("Content-Type", "application/json")]
  /\ exists e', body response
                = InternalServerError "Internal server error" e'
                    "python_recommendations".
Proof.
  intros Hbefore Hafter Hlen path Hreads Hin Hn Hq Hp Hparse response.
  unfold response.
  rewrite (main_reads_as _ _ _ _ _ _ Hreads), respond_routed.
  cbn [req_method req_path].
  rewrite Hin. change (String.eqb "GET" "GET") with true. cbn [andb].
  unfold path. rewrite extract_user_id_join by assumption. cbn [bind].
  destruct (collaborative_for db (Some (Z.of_N n))) as [recs|e0];
    cbn [bind];
    [|split; [reflexivity|]; split; [reflexivity|]; eexists; reflexivity].
  assert (Hk : generate_content_recommendations db draws (Some (Z.of_N n))
               = Raise e).
  { unfold generate_content_recommendations, load_user_data.
    assert (Hid : truthy_id (Some (Z.of_N n)) = true)
      by (apply truthy_id_true; exists (Z.of_N n); split; [reflexivity | lia]).
    now rewrite Hid, Hq, Hp, Hparse. }
  rewrite Hk. cbn [bind]. split; [reflexivity|]. split; [reflexivity|].
  eexists. reflexivity.
Qed.

End MainFacts.

(** ** What can go wrong in binary64 *)

Lemma binary64_div_raises (x y : float) (e : exn) :
  Binary64.div x y = Raise e -> e = ZeroDivisionError.
Proof.
  unfold Binary64.div.
  destruct (PrimFloat.eqb y PrimFloat.zero); [now intros [= <-] | discriminate].
Qed.

Section Binary64Exceptions.

Variable pow_half : float -> float.
Context {sets : SetIteration}.

Lemma binary64_similarity_by_norms_raises (A B : @dict float) (e : exn) :
  @similarity_by_norms float (binary64_with pow_half) sets A B = Raise e ->
  e = OverflowError \/ e = ZeroDivisionError.
Proof.
  unfold similarity_by_norms.
  destruct (is_empty A || is_empty B); [discriminate|].
  destruct (negb (shares_category A B)); [discriminate|].
  intros H. apply bind_raise_inv in H as [H | (norm1 & _ & H)].
  - left. exact (@l2_norm_raises float (binary64_with pow_half)
                   binary64_pow2_raises A e H).
  - apply bind_raise_inv in H as [H | (norm2 & _ & H)].
    + left. exact (@l2_norm_raises float (binary64_with pow_half)
                     binary64_pow2_raises B e H).
    + destruct (feqb norm1 (lit 0 0) || feqb norm2 (lit 0 0));
        [discriminate|].
      right. exact (binary64_div_raises _ _ _ H).
Qed.

Lemma binary64_similarity_raises (user1 user2 : User) (e : exn) :
  @calculate_user_similarity float (binary64_with pow_half) sets user1 user2
  = Raise e ->
  truthy (preferences user1) = true /\ truthy (preferences user2) = true
  /\ ((e = ValueError
       /\ (@parse_preferences float (binary64_with pow_half)
             (raw (preferences user1))
           = Raise ValueError
           \/ @parse_preferences float (binary64_with pow_half)
                (raw (preferences user2))
              = Raise ValueError))
      \/ e = OverflowError \/ e = ZeroDivisionError).
Proof.
  rewrite calculate_user_similarity_spec.
  destruct (truthy (preferences user1)); [|discriminate].
  destruct (truthy (preferences user2)); [|discriminate].
  cbn [negb orb]. intros H. split; [reflexivity|]. split; [reflexivity|].
  apply bind_raise_inv in H as [H | (A & HA & H)].
  - pose proof H as H'. unfold parse_preferences in H'.
    apply parse_pieces_raise in H' as [-> _]. left. auto.
  - apply bind_raise_inv in H as [H | (B & HB & H)].
    + pose proof H as H'. unfold parse_preferences in H'.
      apply parse_pieces_raise in H' as [-> _]. left. auto.
    + right. now apply (binary64_similarity_by_norms_raises A B).
Qed.

End Binary64Exceptions.

(** X16: in binary64, whatever [x ** 0.5] is and in whatever order the
    sets are iterated, the similarity of two users raises only when both
    have preferences, and then nothing but a ValueError, which comes with
    a preference string that does not parse, the OverflowError of the
    square of a score (as for the score 1e200), or the ZeroDivisionError
    of the final division.  The dictionary lookups of lines 74-76 never
    raise KeyError. *)
Theorem similarity_exceptions_binary64 :
  (forall (pow_half : float -> float) (sets : SetIteration)
          (user1 user2 : User) (e : exn),
      @calculate_user_similarity float (binary64_with pow_half) sets
        user1 user2
      = Raise e ->
      truthy (preferences user1) = true /\ truthy (preferences user2) = true
      /\ e <> KeyError
      /\ ((e = ValueError
           /\ (@parse_preferences float (binary64_with pow_half)
                 (raw (preferences user1))
               = Raise ValueError
               \/ @parse_preferences float (binary64_with pow_half)
                    (raw (preferences user2))
                  = Raise ValueError))
          \/ e = OverflowError \/ e = ZeroDivisionError))
  /\ (forall sets : SetIteration,
         @calculate_user_similarity float binary64 sets
           (mk_user 1 (Some "a:1e200")) (mk_user 2 (Some "a:1"))
         = Raise OverflowError).
Proof.
  split;
    [|intros sets; rewrite calculate_user_similarity_spec;
      vm_compute; reflexivity].
  intros pow_half sets user1 user2 e H.
  destruct (binary64_similarity_raises pow_half user1 user2 e H)
    as (H1 & H2 & He).
  split; [assumption|]. split; [assumption|]. split; [|assumption].
  destruct He as [[-> _] | [-> | ->]]; discriminate.
Qed.

(** ** Instances *)

Lemma parse_preferences_append_witness :
  @parse_preferences float binary64 "a:1,b:2"
  = Ok [("a", PrimFloat.one); ("b", 2%float)].
Proof.
  apply (proj1 (@parse_preferences_append float binary64 "a:1" "b" "2"
                  [("a", PrimFloat.one)] 2%float
                  eq_refl eq_refl eq_refl eq_refl eq_refl)).
Defined.

Lemma parse_encode_preferences_witness :
  @parse_preferences float binary64
    (encode_preferences
       (fun v => if PrimFloat.eqb v PrimFloat.one then "1.0" else "0.5")
       [("music", PrimFloat.one); ("travel", 0x1p-1%float)])
  = Ok [("music", PrimFloat.one); ("travel", 0x1p-1%float)].
Proof.
  apply (@parse_encode_preferences float binary64).
  - repeat (constructor; [simpl; intuition discriminate|]). constructor.
  - intros k v [[= <- <-] | [[= <- <-] | []]]; vm_compute; auto.
Defined.

Lemma collaborative_without_preferences_witness :
  @generate_collaborative_recommendations float binary64
    first_operand_order stable_merge
    {| all_users := [mk_user 1 None; mk_user 2 (Some "a:1"); mk_user 3 None];
       query_user := fun _ => None |} 1
  = Ok (map (fun u => user_connection (u, lit 1 1))
          [mk_user 2 (Some "a:1"); mk_user 3 None]).
Proof.
  apply (@collaborative_without_preferences float binary64 binary64_order
           first_operand_order stable_merge
           {| all_users := [mk_user 1 None; mk_user 2 (Some "a:1");
                            mk_user 3 None];
              query_user := fun _ => None |} 1%Z (mk_user 1 None) eq_refl).
  left. reflexivity.
Defined.

Lemma collaborative_count_and_users_witness :
  exists recs,
    @generate_collaborative_recommendations float binary64
      first_operand_order stable_merge scenario 1
    = Ok recs
    /\ List.length recs = 3%nat.
Proof.
  eexists. split; [vm_compute; reflexivity|].
  refine (proj1 (@collaborative_count_and_users float binary64
                   first_operand_order stable_merge scenario 1%Z
                   (mk_user 1 (Some "technology:1.0")) _ eq_refl _)).
  vm_compute. reflexivity.
Defined.

Lemma collaborative_malformed_preferences_witness :
  exists e',
    @generate_collaborative_recommendations float binary64
      first_operand_order stable_merge
      {| all_users := [mk_user 1 (Some "a:x"); mk_user 2 (Some "a:1")];
         query_user := fun _ => None |} 1
    = Raise e'
    /\ (@parse_preferences float binary64 "a:x" = Raise ValueError ->
        e' = ValueError).
Proof.
  apply (@collaborative_malformed_preferences float binary64
           first_operand_order stable_merge
           {| all_users := [mk_user 1 (Some "a:x"); mk_user 2 (Some "a:1")];
              query_user := fun _ => None |} 1%Z
           (mk_user 1 (Some "a:x")) (mk_user 2 (Some "a:1")) ValueError).
  - reflexivity.
  - reflexivity.
  - right. left. reflexivity.
  - discriminate.
  - reflexivity.
  - left. vm_compute. reflexivity.
Defined.

Lemma content_personalized_no_randomness_witness :
  @generate_content_recommendations float binary64 stable_merge
    scenario [] (Some 1%Z)
  = @generate_content_recommendations float binary64 stable_merge
      scenario [5; 7; 9]%nat (Some 1%Z).
Proof.
  apply (proj1 (@content_personalized_no_randomness float binary64
                  stable_merge scenario 1%Z
                  (mk_user 1 (Some "technology:1.0"))
                  ltac:(discriminate) eq_refl eq_refl)).
Defined.

Lemma content_preferences_without_pairs_witness :
  @generate_content_recommendations float binary64 stable_merge
    {| all_users := [];
       query_user := fun _ => Some (mk_user 5 (Some "technology")) |}
    [] (Some 5%Z)
  = Ok (map Scored (@rank_content float binary64 stable_merge
                      content_items [])).
Proof.
  apply (proj1 content_preferences_without_pairs float binary64 stable_merge
           {| all_users := [];
              query_user := fun _ => Some (mk_user 5 (Some "technology")) |}
           [] 5%Z (mk_user 5 (Some "technology")) "technology").
  - discriminate.
  - reflexivity.
  - reflexivity.
  - discriminate.
  - reflexivity.
Defined.

Lemma collaborative_top_three_dominate_witness :
  exists similarities,
    @similarities_to float binary64 first_operand_order
      (mk_user 1 (Some "technology:1.0")) 1 (all_users crowd)
    = Ok similarities
    /\ map (fun entry => id (fst entry))
         (firstn 3 (sort_desc snd similarities))
       = [5; 2; 3]%Z
    /\ map (fun entry => id (fst entry))
         (skipn 3 (sort_desc snd similarities))
       = [4; 6]%Z
    /\ forall kept left_out,
        In kept (firstn 3 (sort_desc snd similarities)) ->
        In left_out (skipn 3 (sort_desc snd similarities)) ->
        PrimFloat.ltb (snd kept) (snd left_out) = false.
Proof.
  eexists. split; [vm_compute; reflexivity|].
  split; [vm_compute; reflexivity|].
  split; [vm_compute; reflexivity|].
  refine (proj2 (@collaborative_top_three_dominate float binary64
                   binary64_order first_operand_order stable_merge crowd 1%Z
                   (mk_user 1 (Some "technology:1.0")) _ eq_refl _ _)).
  - vm_compute. reflexivity.
  - intros x y z Hx Hy Hz.
    destruct Hx as [<-|[<-|[<-|[<-|[<-|[]]]]]];
      destruct Hy as [<-|[<-|[<-|[<-|[<-|[]]]]]];
      destruct Hz as [<-|[<-|[<-|[<-|[<-|[]]]]]];
      vm_compute; intros; congruence.
Defined.

Lemma content_top_five_dominate_witness :
  let ranked :=
    sort_desc recommendation_score
      (map (@score_content float binary64 [("technology", PrimFloat.one)])
         content_items) in
  List.length (skipn 5 ranked) = 1%nat
  /\ forall kept left_out,
      In kept (firstn 5 ranked) -> In left_out (skipn 5 ranked) ->
      PrimFloat.ltb (recommendation_score kept) (recommendation_score left_out)
      = false.
Proof.
  refine (proj2 (@content_top_five_dominate float binary64 binary64_order
                   stable_merge
                   scenario [] 1%Z (mk_user 1 (Some "technology:1.0"))
                   [("technology", PrimFloat.one)] _ eq_refl eq_refl _ _)).
  - discriminate.
  - vm_compute. reflexivity.
  - intros x y z Hx Hy Hz.
    destruct Hx as [<-|[<-|[<-|[<-|[<-|[<-|[]]]]]]];
      destruct Hy as [<-|[<-|[<-|[<-|[<-|[<-|[]]]]]]];
      destruct Hz as [<-|[<-|[<-|[<-|[<-|[<-|[]]]]]]];
      vm_compute; intros; congruence.
Defined.


Lemma extract_user_id_decimal_witness :
  extract_user_id "/api/users/42/recommendations" = Ok (Some 42%Z).
Proof.
  apply (extract_user_id_decimal [EmptyString; "api"] ["recommendations"] 42).
  - repeat constructor; discriminate.
  - repeat constructor.
  - vm_compute. lia.
Defined.

Lemma post_request_reads :
  reads_as
    (Text (Ok (JObject [("method", JString "POST");
                        ("path", JString "/users/recommendations");
                        ("query", JObject [])])))
    {| req_method := Some "POST"; req_path := Some "/users/recommendations" |}.
Proof. eexists. split; [reflexivity|]. split; reflexivity. Qed.

Lemma main_not_found_witness :
  let input :=
    Text (Ok (JObject [("method", JString "POST");
                       ("path", JString "/users/recommendations");
                       ("query", JObject [])])) in
  status (@main float binary64 first_operand_order stable_merge
            scenario [] 0 "2024-01-01T00:00:00" input) = 404%Z
  /\ @main float binary64 first_operand_order stable_merge
       scenario [] 0 "2024-01-01T00:00:00" input
     = {| status := 404;
          headers := [("Content-Type", "application/json");
                      ("X-Powered-By", "Backworks-AI-Python")];
          body := EndpointNotFound "Endpoint not found"
                    ["GET /users/recommendations";
                     "GET /users/{id}/recommendations"] |}.
Proof.
  split; [reflexivity|].
  exact (proj2 (@main_not_found float binary64 first_operand_order
                  stable_merge scenario [] 0%nat "2024-01-01T00:00:00"
                  _ _ post_request_reads) eq_refl).
Defined.

Lemma path_only_request_reads :
  reads_as (Text (Ok (JObject [("path", JString "/recommendations")])))
    {| req_method := None; req_path := Some "/recommendations" |}.
Proof. eexists. split; [reflexivity|]. split; reflexivity. Qed.

Lemma main_without_user_witness :
  status (@main float binary64 first_operand_order stable_merge
            scenario [5; 7; 9]%nat 320 "2024-01-01T00:00:00"
            (Text (Ok (JObject [("path", JString "/recommendations")]))))
  = 200%Z.
Proof.
  rewrite (proj1 (@main_without_user float binary64 first_operand_order
                    stable_merge scenario [5; 7; 9]%nat
                    320%nat "2024-01-01T00:00:00" _ None "/recommendations"
                    None path_only_request_reads eq_refl
                    (or_introl eq_refl) eq_refl eq_refl eq_refl)).
  reflexivity.
Defined.


Lemma malformed_request_reads :
  reads_as
    (Text (Ok (JObject [("method", JString "GET");
                        ("path", JString "/users/7/recommendations")])))
    {| req_method := Some "GET";
       req_path := Some (join "/" ([EmptyString]
                                     ++ "users" :: decimal 7
                                     :: ["recommendations"])) |}.
Proof. eexists. split; [reflexivity|]. split; reflexivity. Qed.

Lemma main_malformed_preferences_witness :
  status (@main float binary64 first_operand_order stable_merge
            {| all_users := [];
               query_user := fun _ => Some (mk_user 7 (Some "music:high")) |}
            [] 0 "2024-01-01T00:00:00"
            (Text (Ok (JObject [("method", JString "GET");
                                ("path",
                                 JString "/users/7/recommendations")]))))
  = 500%Z.
Proof.
  refine (proj1 (@main_malformed_preferences float binary64
                   first_operand_order stable_merge
                   {| all_users := [];
                      query_user :=
                        fun _ => Some (mk_user 7 (Some "music:high")) |}
                   [] 0%nat "2024-01-01T00:00:00" _
                   [EmptyString] ["recommendations"] 7%N
                   (mk_user 7 (Some "music:high")) ValueError
                   _ _ _ malformed_request_reads eq_refl _ eq_refl eq_refl _)).
  - repeat constructor; discriminate.
  - repeat constructor.
  - vm_compute. lia.
  - discriminate.
  - vm_compute. reflexivity.
Defined.

Lemma similarity_exceptions_binary64_witness :
  @calculate_user_similarity float binary64 first_operand_order
    (mk_user 1 (Some "a:x")) (mk_user 2 (Some "a:1")) = Raise ValueError
  /\ ValueError <> KeyError.
Proof.
  assert (H : @calculate_user_similarity float binary64 first_operand_order
                (mk_user 1 (Some "a:x")) (mk_user 2 (Some "a:1"))
              = Raise ValueError) by (vm_compute; reflexivity).
  split; [exact H|].
  exact (proj1 (proj2 (proj2 (proj1 similarity_exceptions_binary64
                                PrimFloat.sqrt first_operand_order
                                (mk_user 1 (Some "a:x"))
                                (mk_user 2 (Some "a:1")) ValueError H)))).
Defined.
